(** * Niklohome backend: the properties resource

    A shallow embedding of [src/routes/properties.js], the five Express
    handlers of the [properties] resource, together with an in-memory model
    of the persistence client they call.

    Layout:
    - [JS]       the JavaScript values the handlers see, truthiness, [||],
                 [parseInt] and [Math.ceil] of a quotient;
    - [Effects]  the monad of a handler body: state passing over the
                 persistence client's state, with thrown errors and
                 [try]/[catch];
    - [Model]    the Property entity;
    - [Prisma]   the interface of the persistence client
                 ([prisma.property.create], [count], [findMany], ...);
    - [Routes]   the handlers, written against that interface;
    - [MemDb]    the in-memory persistence client;
    - [Config]   [connectDB] of [src/config/database.js];
    - theorems. *)

From Stdlib Require Import ZArith String Ascii List Sorting.Sorted Permutation.
From Stdlib Require Import Decimal DecimalString DecimalPos DecimalZ.
From stdpp Require Import gmap strings list sorting.

Local Open Scope string_scope.
Local Open Scope Z_scope.

(** ** JavaScript values *)

Module JS.

(** A value of a parsed JSON body, or [undefined] for a property that the
    object does not have.  A number is held as an integer: the handlers
    only test a number of the body for truthiness and pass it on, and there
    a number with a fraction behaves as any integer other than 0.  An array
    or an object is carried whole and is only ever tested for truthiness. *)
#[warnings="-register-all"]
Inductive Value : Type :=
| Undefined
| Null
| Bool (b : bool)
| Num (n : Z)
| Str (s : string)
| Arr (elems : list Value)
| Obj (fields : list (string * Value)).

(** ToBoolean: [undefined], [null], [false], [0] and [""] are falsy,
    everything else (every array and object too) is truthy. *)
Definition truthy (v : Value) : bool :=
  match v with
  | Undefined | Null => false
  | Bool b => b
  | Num n => negb (n =? 0)
  | Str s => match s with EmptyString => false | String _ _ => true end
  | Arr _ | Obj _ => true
  end.

(** [a || b] *)
Definition or (a b : Value) : Value := if truthy a then a else b.

(** [a !== undefined ? a : b] *)
Definition if_defined (a b : Value) : Value :=
  match a with
  | Undefined => b
  | _ => a
  end.

(** [o.k] on an object held as a finite map: the value of the key, or
    [undefined] when the object has no such key. *)
Definition get (o : gmap string Value) (k : string) : Value :=
  default Undefined (o !! k).

(** The result of [parseInt]: an integer or [NaN]. *)
Inductive Number : Type :=
| NaN
| Int (z : Z).

(** [n || d] for a number [n] and a default [d]: [NaN] and [0] are the
    falsy numbers. *)
Definition number_or (n : Number) (d : Z) : Z :=
  match n with
  | NaN => d
  | Int z => if z =? 0 then d else z
  end.

(** White space and line terminators, which [parseInt] skips at the start
    of its input.  A string is held as its UTF-8 bytes, so a white space
    character is one, two or three bytes long: TAB, LF, VT, FF, CR and SP;
    U+00A0; U+1680, U+2000 to U+200A, U+2028, U+2029, U+202F, U+205F,
    U+3000 and U+FEFF. *)
Definition is_space (c : ascii) : bool :=
  let n := nat_of_ascii c in
  ((9 <=? n) && (n <=? 13))%nat || (n =? 32)%nat.

Definition is_space2 (a b : ascii) : bool :=
  ((nat_of_ascii a =? 194) && (nat_of_ascii b =? 160))%nat.

Definition is_space3 (a b c : ascii) : bool :=
  let a := nat_of_ascii a in
  let b := nat_of_ascii b in
  let c := nat_of_ascii c in
  ((a =? 225) && ((b =? 154) && (c =? 128))
   || (a =? 226) && ((b =? 128)
                     && ((128 <=? c) && (c <=? 138)
                         || (c =? 168) || (c =? 169) || (c =? 175)))
   || (a =? 226) && ((b =? 129) && (c =? 159))
   || (a =? 227) && ((b =? 128) && (c =? 128))
   || (a =? 239) && ((b =? 187) && (c =? 191)))%nat.

Fixpoint trim_start (s : string) : string :=
  match s with
  | String a rest =>
      if is_space a then trim_start rest
      else
        match rest with
        | String b rest2 =>
            if is_space2 a b then trim_start rest2
            else
              match rest2 with
              | String c rest3 =>
                  if is_space3 a b c then trim_start rest3 else s
              | EmptyString => s
              end
        | EmptyString => s
        end
  | EmptyString => s
  end.

(** The value of a digit character in radix up to 16. *)
Definition digit_value (c : ascii) : option Z :=
  let n := Z.of_nat (nat_of_ascii c) in
  if (48 <=? n) && (n <=? 57) then Some (n - 48)
  else if (97 <=? n) && (n <=? 102) then Some (n - 87)
  else if (65 <=? n) && (n <=? 70) then Some (n - 55)
  else None.

(** The longest prefix of [s] made of digits of the radix, read as a
    number; [acc] is [None] until a first digit has been read. *)
Fixpoint read_digits (radix : Z) (s : string) (acc : option Z) : option Z :=
  match s with
  | String c rest =>
      match digit_value c with
      | Some d =>
          if d <? radix
          then read_digits radix rest (Some (default 0 acc * radix + d))
          else acc
      | None => acc
      end
  | EmptyString => acc
  end.

Definition strip_sign (s : string) : Z * string :=
  match s with
  | String "-" rest => (-1, rest)
  | String "+" rest => (1, rest)
  | _ => (1, s)
  end.

Definition strip_radix (s : string) : Z * string :=
  match s with
  | String "0" (String "x" rest) => (16, rest)
  | String "0" (String "X" rest) => (16, rest)
  | _ => (10, s)
  end.

(** [parseInt(s)] with no radix argument: skip white space, read a sign,
    read a [0x] prefix, read the digits; [NaN] when there is no digit.  The
    result is the exact integer: a numeral beyond 2^53, which JavaScript
    rounds to a double, is outside this model. *)
Definition parseInt (s : string) : Number :=
  let '(sign, s1) := strip_sign (trim_start s) in
  let '(radix, s2) := strip_radix s1 in
  match read_digits radix s2 None with
  | Some n => Int (sign * n)
  | None => NaN
  end.

(** ToString of an integer: its decimal numeral, with [-] when negative
    (what a client writes in [?page=...]). *)
Definition decimal (z : Z) : string := NilZero.string_of_int (Z.to_int z).

(** The safe integers, those below 2^53 in absolute value
    ([Number.isSafeInteger]): a JavaScript number holds each of them
    exactly.  On safe integers with a safe result, [parseInt], [-], [*] and
    [Math.ceil] of a quotient are the operations on integers written here;
    beyond them JavaScript rounds to a double (and a long numeral reads as
    [Infinity]), so a statement about the value of a page, a limit, a skip
    or a count carries [safe] as a hypothesis. *)
Definition safe (z : Z) : Prop := - 2 ^ 53 < z < 2 ^ 53.

(** [Math.ceil(n / l)] for integers [n] and [l], [l] not zero: the least
    integer that is at least the quotient. *)
Definition ceil_div (n l : Z) : Z := - ((- n) / l).

End JS.

(** ** The monad of a handler body *)

Module Effects.

(** A thrown [Error]; the handlers read only its [message]. *)
Record Error : Type := { message : string }.

Inductive Outcome (A : Type) : Type :=
| Returned (a : A)
| Thrown (e : Error).
Arguments Returned {A} a.
Arguments Thrown {A} e.

(** An awaited computation over the state [S] of the persistence client. *)
Definition M (S A : Type) : Type := S -> Outcome A * S.

Definition ret {S A : Type} (a : A) : M S A := fun s => (Returned a, s).

Definition bind {S A B : Type} (m : M S A) (k : A -> M S B) : M S B :=
  fun s =>
    match m s with
    | (Returned a, s') => k a s'
    | (Thrown e, s') => (Thrown e, s')
    end.

(** [try { m } catch (error) { h error }] *)
Definition try_catch {S A : Type} (m : M S A) (h : Error -> M S A) : M S A :=
  fun s =>
    match m s with
    | (Returned a, s') => (Returned a, s')
    | (Thrown e, s') => h e s'
    end.

End Effects.

Import Effects.

Notation "'let*' x := m 'in' k" := (bind m (fun x => k))
  (at level 10, x name, m at level 100, k at level 200, only parsing).

(** ** The Property entity *)

Module Model.

(** The object literal that a handler passes as [data] to
    [prisma.property.create] and [prisma.property.update]. *)
Record PropertyData : Type := {
  name : JS.Value;
  location : JS.Value;
  brochure : JS.Value;
  image : JS.Value;
  model3d : JS.Value;
  availableApartments : JS.Value;
  status : JS.Value
}.

(** A Property record as the persistence client hands it to a handler: the
    seven fields that the handlers write, under [fields], and the three that
    the persistence layer assigns. *)
Record Property : Type := {
  id : string;
  fields : PropertyData;
  createdAt : Z;
  updatedAt : Z
}.

(** [orderBy: { createdAt: 'asc' | 'desc' }] *)
Inductive SortOrder : Type :=
| asc
| desc.

End Model.

Import Model.

(** ** The interface of the persistence client *)

Module Prisma.

(** [prisma.property]: the operations that the handlers call, over the
    client's state [S].  Each may throw.  [findUnique] returns [None] for
    JavaScript's [null]; [findMany] takes the order on [createdAt], [skip]
    and [take]. *)
Record Client (S : Type) : Type := {
  create : PropertyData -> M S Property;
  count : M S Z;
  findMany : SortOrder -> Z -> Z -> M S (list Property);
  findUnique : string -> M S (option Property);
  update : string -> PropertyData -> M S Property;
  delete : string -> M S Property
}.
Arguments create {S} _ _ _.
Arguments count {S} _ _.
Arguments findMany {S} _ _ _ _ _.
Arguments findUnique {S} _ _ _.
Arguments update {S} _ _ _ _.
Arguments delete {S} _ _ _.

End Prisma.

(** ** The handlers of [routes/properties.js] *)

Module Routes.

(** The [pagination] object of the list response. *)
Record Pagination : Type := {
  currentPage : Z;
  totalPages : Z;
  totalItems : Z;
  itemsPerPage : Z;
  hasNextPage : bool;
  hasPrevPage : bool
}.

(** The JSON bodies that the handlers send. *)
Inductive Json : Type :=
| Message (message : string)
| MessageProperty (message : string) (property : Property)
| OneProperty (property : Property)
| Page (properties : list Property) (pagination : Pagination)
| MessageError (message : string) (error : string).

(** What a handler has sent when it ends: [res.status(code).json(body)];
    [res.json(body)] alone sends status 200. *)
Record Response : Type := {
  statusCode : Z;
  json : Json
}.

Definition res_status_json (code : Z) (body : Json) : Response :=
  {| statusCode := code; json := body |}.

Definition res_json (body : Json) : Response := res_status_json 200 body.

(** A value of [req.query]: absent, a string, or the array of strings of a
    repeated parameter. *)
Inductive QueryValue : Type :=
| QAbsent
| QString (s : string)
| QArray (l : list string).

(** ToString, which [parseInt] applies to its argument. *)
Definition to_string (v : QueryValue) : string :=
  match v with
  | QAbsent => "undefined"
  | QString s => s
  | QArray l => String.concat "," l
  end.

Definition query_get (q : gmap string QueryValue) (k : string) : QueryValue :=
  default QAbsent (q !! k).

(** Lines 60-62: [page], [limit] and [skip] of a list request, as exact
    integers: they are the numbers of the code as long as they are
    [JS.safe]. *)
Definition page_of (query : gmap string QueryValue) : Z :=
  JS.number_or (JS.parseInt (to_string (query_get query "page"))) 1.

Definition limit_of (query : gmap string QueryValue) : Z :=
  JS.number_or (JS.parseInt (to_string (query_get query "limit"))) 10.

Definition skip_of (page limit : Z) : Z := (page - 1) * limit.

(** Lines 78-85: the pagination descriptor, for [JS.safe] page, limit and
    count. *)
Definition pagination_of (page limit totalCount : Z) : Pagination :=
  {| currentPage := page;
     totalPages := JS.ceil_div totalCount limit;
     totalItems := totalCount;
     itemsPerPage := limit;
     hasNextPage := page <? JS.ceil_div totalCount limit;
     hasPrevPage := page >? 1 |}.

(** Lines 31-39: the [data] of a create. *)
Definition create_data (body : gmap string JS.Value) : PropertyData :=
  {| name := JS.get body "name";
     location := JS.get body "location";
     brochure := JS.or (JS.get body "brochure") JS.Null;
     image := JS.or (JS.get body "image") JS.Null;
     model3d := JS.or (JS.get body "model3d") JS.Null;
     availableApartments :=
       JS.or (JS.get body "availableApartments") (JS.Num 0);
     status := JS.or (JS.get body "status") (JS.Str "available") |}.

(** Lines 155-163: the [data] of an update. *)
Definition update_data (body : gmap string JS.Value)
    (existingProperty : Property) : PropertyData :=
  let existing := fields existingProperty in
  {| name := JS.or (JS.get body "name") (name existing);
     location := JS.or (JS.get body "location") (location existing);
     brochure := JS.if_defined (JS.get body "brochure") (brochure existing);
     image := JS.if_defined (JS.get body "image") (image existing);
     model3d := JS.if_defined (JS.get body "model3d") (model3d existing);
     availableApartments :=
       JS.if_defined (JS.get body "availableApartments")
         (availableApartments existing);
     status := JS.or (JS.get body "status") (status existing) |}.

Section Handlers.

Context {S : Type} (prisma : Prisma.Client S).

(** [router.post('/', adminAuth, ...)]: the body of the handler, which runs
    once [adminAuth] has let the request through.  [console.error] in the
    [catch] blocks writes to the process log only and is left out. *)
Definition router_post (body : gmap string JS.Value) : M S Response :=
  try_catch
    (if negb (JS.truthy (JS.get body "name"))
        || negb (JS.truthy (JS.get body "location"))
     then ret (res_status_json 400 (Message "Name and location are required"))
     else
       let* property := Prisma.create prisma (create_data body) in
       ret (res_status_json 201
              (MessageProperty "Property created successfully" property)))
    (fun error =>
       ret (res_status_json 500
              (MessageError "Server error during property creation"
                 (message error)))).

(** [router.get('/', ...)] *)
Definition router_get (query : gmap string QueryValue) : M S Response :=
  try_catch
    (let page := page_of query in
     let limit := limit_of query in
     let skip := skip_of page limit in
     let* totalCount := Prisma.count prisma in
     let* properties := Prisma.findMany prisma desc skip limit in
     ret (res_json (Page properties (pagination_of page limit totalCount))))
    (fun error =>
       ret (res_status_json 500 (MessageError "Server error" (message error)))).

(** [router.get('/:id', ...)] *)
Definition router_get_id (id : string) : M S Response :=
  try_catch
    (let* property := Prisma.findUnique prisma id in
     match property with
     | None => ret (res_status_json 404 (Message "Property not found"))
     | Some property => ret (res_json (OneProperty property))
     end)
    (fun error =>
       ret (res_status_json 500 (MessageError "Server error" (message error)))).

(** [router.put('/:id', adminAuth, ...)] *)
Definition router_put_id (id : string) (body : gmap string JS.Value)
    : M S Response :=
  try_catch
    (let* existingProperty := Prisma.findUnique prisma id in
     match existingProperty with
     | None => ret (res_status_json 404 (Message "Property not found"))
     | Some existingProperty =>
         let* property :=
           Prisma.update prisma id (update_data body existingProperty) in
         ret (res_json
                (MessageProperty "Property updated successfully" property))
     end)
    (fun error =>
       ret (res_status_json 500
              (MessageError "Server error during property update"
                 (message error)))).

(** [router.delete('/:id', adminAuth, ...)] *)
Definition router_delete_id (id : string) : M S Response :=
  try_catch
    (let* existingProperty := Prisma.findUnique prisma id in
     match existingProperty with
     | None => ret (res_status_json 404 (Message "Property not found"))
     | Some _ =>
         let* _ := Prisma.delete prisma id in
         ret (res_json (Message "Property deleted successfully"))
     end)
    (fun error =>
       ret (res_status_json 500
              (MessageError "Server error during property deletion"
                 (message error)))).

End Handlers.

End Routes.

Import Routes.

(** ** The persistence client, in memory *)

Module MemDb.

(** Modelled from the spec: [lib/prisma] and the Prisma schema are not among
    the sources, so the persistence client follows sections 3 and 6 of the
    specification.  The store holds the Property records under their unique
    [id], next to the clock that stamps them. *)
Record Db : Type := {
  rows : gmap string Property;
  now : Z
}.

(** The calls a handler can make on the client. *)
Inductive Query : Type :=
| QCreate (data : PropertyData)
| QCount
| QFindMany (orderBy : SortOrder) (skip take : Z)
| QFindUnique (id : string)
| QUpdate (id : string) (data : PropertyData)
| QDelete (id : string).

(** The order that [orderBy] asks for. *)
Definition ordered (o : SortOrder) (a b : Property) : Prop :=
  match o with
  | asc => createdAt a <= createdAt b
  | desc => createdAt b <= createdAt a
  end.

#[global] Instance ordered_dec o a b : Decision (ordered o a b).
Proof. destruct o; simpl; apply _. Defined.

(** All records, in the order that [orderBy] asks for. *)
Definition all_rows (o : SortOrder) (s : Db) : list Property :=
  merge_sort (ordered o) ((map_to_list (rows s)).*2).

Definition not_found : Error :=
  {| message := "Record to update or delete does not exist" |}.

Section Client.

(** Modelled from the spec: "must throw/reject on any underlying failure
    (connectivity, constraint violation)".  Which calls fail, and with what
    error, is left open: [fault s q] is the error of call [q] in state [s],
    if it fails there.  A failed call changes nothing. *)
Variable fault : Db -> Query -> option Error.

Definition call {A : Type} (q : Query) (run : Db -> Outcome A * Db) : M Db A :=
  fun s =>
    match fault s q with
    | Some e => (Thrown e, s)
    | None => run s
    end.

(** Modelled from the spec: create(data) persists a new record; its [id] is
    system-generated and unique, its timestamps are the time of creation. *)
Definition create (data : PropertyData) : M Db Property :=
  call (QCreate data) (fun s =>
    let property :=
      {| id := fresh (dom (rows s));
         fields := data;
         createdAt := now s;
         updatedAt := now s |} in
    (Returned property,
     {| rows := <[id property := property]> (rows s); now := now s |})).

(** Modelled from the spec: count() is the total record count. *)
Definition count : M Db Z :=
  call QCount (fun s => (Returned (Z.of_nat (size (rows s))), s)).

(** Modelled from the spec: findMany retrieves up to [take] records in the
    order asked for, skipping [skip].  The specification says nothing of a
    negative [skip] or [take]; here they skip and take nothing. *)
Definition findMany (o : SortOrder) (skip take : Z) : M Db (list Property) :=
  call (QFindMany o skip take) (fun s =>
    (Returned (firstn (Z.to_nat take) (skipn (Z.to_nat skip) (all_rows o s))),
     s)).

(** Modelled from the spec: findUnique looks the record up by id. *)
Definition findUnique (id : string) : M Db (option Property) :=
  call (QFindUnique id) (fun s => (Returned (rows s !! id), s)).

(** Modelled from the spec: update({id, data}) overwrites the fields of the
    record and maintains its update timestamp; [id] and [createdAt] are
    immutable.  On a missing record it throws. *)
Definition update (id : string) (data : PropertyData) : M Db Property :=
  call (QUpdate id data) (fun s =>
    match rows s !! id with
    | None => (Thrown not_found, s)
    | Some old =>
        let property :=
          {| id := id;
             fields := data;
             createdAt := createdAt old;
             updatedAt := now s |} in
        (Returned property,
         {| rows := <[id := property]> (rows s); now := now s |})
    end).

(** Modelled from the spec: delete({id}) permanently removes the record.
    On a missing record it throws. *)
Definition delete (id : string) : M Db Property :=
  call (QDelete id) (fun s =>
    match rows s !! id with
    | None => (Thrown not_found, s)
    | Some old =>
        (Returned old, {| rows := base.delete id (rows s); now := now s |})
    end).

Definition prisma : Prisma.Client Db :=
  {| Prisma.create := create;
     Prisma.count := count;
     Prisma.findMany := findMany;
     Prisma.findUnique := findUnique;
     Prisma.update := update;
     Prisma.delete := delete |}.

(** One request served, or time passing between two requests. *)
Inductive Event : Type :=
| Post (body : gmap string JS.Value)
| GetList (query : gmap string QueryValue)
| GetOne (id : string)
| Put (id : string) (body : gmap string JS.Value)
| Delete (id : string)
| Tick (dt : Z).

Definition serve (ev : Event) (s : Db) : option Response * Db :=
  let sent (r : Outcome Response * Db) : option Response * Db :=
    match r with
    | (Returned response, s') => (Some response, s')
    | (Thrown _, s') => (None, s')
    end in
  match ev with
  | Post body => sent (router_post prisma body s)
  | GetList query => sent (router_get prisma query s)
  | GetOne id => sent (router_get_id prisma id s)
  | Put id body => sent (router_put_id prisma id body s)
  | Delete id => sent (router_delete_id prisma id s)
  | Tick dt => (None, {| rows := rows s; now := now s + Z.max 0 dt |})
  end.

(** The store after a sequence of events. *)
Definition run (evs : list Event) (s : Db) : Db :=
  fold_left (fun s ev => snd (serve ev s)) evs s.

End Client.

(** The invariant of the store: every record has a truthy [name] and a truthy
    [location]. *)
Definition named_and_located (s : Db) : Prop :=
  forall id property,
    rows s !! id = Some property ->
    JS.truthy (name (fields property)) = true /\
    JS.truthy (location (fields property)) = true.

(** The store at start-up: no record. *)
Definition empty (t0 : Z) : Db := {| rows := ∅; now := t0 |}.

(** The client that never fails. *)
Definition healthy : Db -> Query -> option Error := fun _ _ => None.

(** The client of a database that cannot be reached. *)
Definition unreachable (msg : string) : Db -> Query -> option Error :=
  fun _ _ => Some {| message := msg |}.

(** The client of a database that answers look-ups and counts and refuses
    everything else. *)
Definition degraded (msg : string) : Db -> Query -> option Error :=
  fun _ q =>
    match q with
    | QCount | QFindUnique _ => None
    | _ => Some {| message := msg |}
    end.

End MemDb.

(** ** Start-up: [config/database.js] *)

Module Config.

(** The process as [connectDB] can change it: the lines written with
    [console.log], the errors written with [console.error] under their
    label, and the exit code once [process.exit] has been called. *)
Record Process : Type := {
  stdout : list string;
  stderr : list (string * Error);
  exitCode : option Z
}.

(** The process at start-up. *)
Definition started : Process :=
  {| stdout := []; stderr := []; exitCode := None |}.

Section ConnectDB.

(** [prisma.$connect], over the state [S] of the client. *)
Context {S : Type} (connect : M S unit).

Definition prisma_connect : M (S * Process) unit :=
  fun '(s, p) => let '(r, s') := connect s in (r, (s', p)).

Definition console_log (line : string) : M (S * Process) unit :=
  fun '(s, p) =>
    (Returned tt,
     (s, {| stdout := stdout p ++ [line];
            stderr := stderr p;
            exitCode := exitCode p |})).

Definition console_error (label : string) (error : Error)
    : M (S * Process) unit :=
  fun '(s, p) =>
    (Returned tt,
     (s, {| stdout := stdout p;
            stderr := stderr p ++ [(label, error)];
            exitCode := exitCode p |})).

Definition process_exit (code : Z) : M (S * Process) unit :=
  fun '(s, p) =>
    (Returned tt,
     (s, {| stdout := stdout p;
            stderr := stderr p;
            exitCode := Some code |})).

(** [connectDB] *)
Definition connectDB : M (S * Process) unit :=
  try_catch
    (let* _ := prisma_connect in
     console_log "PostgreSQL connected successfully via Prisma")
    (fun error =>
       let* _ := console_error "Database connection error:" error in
       process_exit 1).

End ConnectDB.

End Config.

Import MemDb.

(** * Properties *)

Ltac unfold_handler :=
  unfold router_post, router_get, router_get_id, router_put_id,
    router_delete_id, try_catch, bind, ret.

(** ** Truthiness and the two merge operators *)

Lemma or_truthy (a b : JS.Value) : JS.truthy a = true -> JS.or a b = a.
Proof. unfold JS.or. intros ->. reflexivity. Qed.

Lemma or_falsy (a b : JS.Value) : JS.truthy a = false -> JS.or a b = b.
Proof. unfold JS.or. intros ->. reflexivity. Qed.

Lemma truthy_or (a b : JS.Value) :
  JS.truthy b = true -> JS.truthy (JS.or a b) = true.
Proof. unfold JS.or. destruct (JS.truthy a) eqn:E; auto. Qed.

Lemma truthy_nonempty (v : JS.Value) :
  JS.truthy v = true ->
  v <> JS.Str "" /\ v <> JS.Null /\ v <> JS.Undefined.
Proof.
  destruct v as [| |b|n|s|l|l]; try destruct s;
    simpl; intros H; repeat split; congruence.
Qed.

Lemma if_defined_present (a b : JS.Value) :
  a <> JS.Undefined -> JS.if_defined a b = a.
Proof. destruct a; simpl; congruence. Qed.

Lemma get_present (o : gmap string JS.Value) (k : string) (v : JS.Value) :
  o !! k = Some v -> JS.get o k = v.
Proof. unfold JS.get. intros ->. reflexivity. Qed.

Lemma get_absent (o : gmap string JS.Value) (k : string) :
  o !! k = None -> JS.get o k = JS.Undefined.
Proof. unfold JS.get. intros ->. reflexivity. Qed.

Lemma get_delete_ne (o : gmap string JS.Value) (k k' : string) :
  k <> k' -> JS.get (base.delete k o) k' = JS.get o k'.
Proof. intros H. unfold JS.get. rewrite lookup_delete_ne; auto. Qed.

Lemma get_delete_eq (o : gmap string JS.Value) (k : string) :
  JS.get (base.delete k o) k = JS.Undefined.
Proof. unfold JS.get. rewrite lookup_delete_eq. reflexivity. Qed.

(** ** The handlers, call by call, over any persistence client *)

Section HandlerFacts.

Context {S : Type} (prisma : Prisma.Client S).

Lemma router_post_invalid (body : gmap string JS.Value) (s : S) :
  JS.truthy (JS.get body "name") = false \/
  JS.truthy (JS.get body "location") = false ->
  router_post prisma body s =
    (Returned
       (res_status_json 400 (Message "Name and location are required")),
     s).
Proof.
  intros H. unfold_handler.
  destruct H as [-> | ->]; [ reflexivity | ].
  rewrite orb_true_r. reflexivity.
Qed.

Lemma router_post_created (body : gmap string JS.Value) (s s' : S)
    (property : Property) :
  JS.truthy (JS.get body "name") = true ->
  JS.truthy (JS.get body "location") = true ->
  Prisma.create prisma (create_data body) s = (Returned property, s') ->
  router_post prisma body s =
    (Returned
       (res_status_json 201
          (MessageProperty "Property created successfully" property)),
     s').
Proof.
  intros Hn Hl H. unfold_handler. rewrite Hn, Hl. cbn [negb orb].
  rewrite H. reflexivity.
Qed.

Lemma router_post_failed (body : gmap string JS.Value) (s s' : S) (e : Error) :
  JS.truthy (JS.get body "name") = true ->
  JS.truthy (JS.get body "location") = true ->
  Prisma.create prisma (create_data body) s = (Thrown e, s') ->
  router_post prisma body s =
    (Returned
       (res_status_json 500
          (MessageError "Server error during property creation" (message e))),
     s').
Proof.
  intros Hn Hl H. unfold_handler. rewrite Hn, Hl. cbn [negb orb].
  rewrite H. reflexivity.
Qed.

Lemma router_get_page (query : gmap string QueryValue) (s s1 s2 : S)
    (totalCount : Z) (properties : list Property) :
  Prisma.count prisma s = (Returned totalCount, s1) ->
  Prisma.findMany prisma desc
    ((page_of query - 1) * limit_of query) (limit_of query) s1 =
    (Returned properties, s2) ->
  router_get prisma query s =
    (Returned
       (res_json
          (Page properties
             (pagination_of (page_of query) (limit_of query) totalCount))),
     s2).
Proof.
  intros Hcount Hmany. unfold_handler. unfold skip_of.
  rewrite Hcount, Hmany. reflexivity.
Qed.

Lemma router_not_found (id : string) (s s1 : S) :
  Prisma.findUnique prisma id s = (Returned None, s1) ->
  let not_found :=
    Returned (res_status_json 404 (Message "Property not found")) in
  router_get_id prisma id s = (not_found, s1) /\
  (forall body, router_put_id prisma id body s = (not_found, s1)) /\
  router_delete_id prisma id s = (not_found, s1).
Proof.
  intros H nf. repeat split; intros; unfold_handler; rewrite H; reflexivity.
Qed.

Lemma router_get_id_found (id : string) (s s1 : S) (property : Property) :
  Prisma.findUnique prisma id s = (Returned (Some property), s1) ->
  router_get_id prisma id s = (Returned (res_json (OneProperty property)), s1).
Proof. intros H. unfold_handler. rewrite H. reflexivity. Qed.

Lemma router_put_id_updated (id : string) (body : gmap string JS.Value)
    (s s1 s2 : S) (existingProperty property : Property) :
  Prisma.findUnique prisma id s = (Returned (Some existingProperty), s1) ->
  Prisma.update prisma id (update_data body existingProperty) s1 =
    (Returned property, s2) ->
  router_put_id prisma id body s =
    (Returned
       (res_json (MessageProperty "Property updated successfully" property)),
     s2).
Proof. intros H H0. unfold_handler. rewrite H, H0. reflexivity. Qed.

Lemma router_post_returns body s :
  exists response s', router_post prisma body s = (Returned response, s').
Proof.
  unfold_handler.
  destruct (negb _ || negb _); [ eauto | ].
  destruct (Prisma.create prisma _ s) as [[p | e] s']; eauto.
Qed.

Lemma router_get_returns query s :
  exists response s', router_get prisma query s = (Returned response, s').
Proof.
  unfold_handler.
  destruct (Prisma.count prisma s) as [[n | e] s1]; [ | eauto ].
  destruct (Prisma.findMany prisma _ _ _ s1) as [[ps | e] s2]; eauto.
Qed.

Lemma router_get_id_returns id s :
  exists response s', router_get_id prisma id s = (Returned response, s').
Proof.
  unfold_handler.
  destruct (Prisma.findUnique prisma id s) as [[[p | ] | e] s1]; eauto.
Qed.

Lemma router_put_id_returns id body s :
  exists response s', router_put_id prisma id body s = (Returned response, s').
Proof.
  unfold_handler.
  destruct (Prisma.findUnique prisma id s) as [[[p | ] | e] s1]; eauto.
  destruct (Prisma.update prisma id _ s1) as [[p' | e] s2]; eauto.
Qed.

Lemma router_delete_id_returns id s :
  exists response s', router_delete_id prisma id s = (Returned response, s').
Proof.
  unfold_handler.
  destruct (Prisma.findUnique prisma id s) as [[[p | ] | e] s1]; eauto.
  destruct (Prisma.delete prisma id s1) as [[p' | e] s2]; eauto.
Qed.

End HandlerFacts.

(** ** The calls of the in-memory client *)

Section ClientFacts.

Variable fault : Db -> Query -> option Error.

Lemma call_ok {A : Type} (q : Query) (run : Db -> Outcome A * Db) (s : Db) :
  fault s q = None -> call fault q run s = run s.
Proof. unfold call. intros ->. reflexivity. Qed.

Lemma findUnique_ok (s : Db) (id : string) :
  fault s (QFindUnique id) = None ->
  Prisma.findUnique (prisma fault) id s = (Returned (rows s !! id), s).
Proof. intros H. simpl. unfold findUnique. rewrite call_ok; auto. Qed.

Lemma create_ok (s : Db) (data : PropertyData) :
  fault s (QCreate data) = None ->
  let property :=
    {| id := fresh (dom (rows s)); fields := data;
       createdAt := now s; updatedAt := now s |} in
  Prisma.create (prisma fault) data s =
    (Returned property,
     {| rows := <[id property := property]> (rows s); now := now s |}).
Proof. intros H. simpl. unfold create. rewrite call_ok; auto. Qed.

Lemma create_fresh (s : Db) : rows s !! fresh (dom (rows s)) = None.
Proof. apply not_elem_of_dom. apply is_fresh. Qed.

Lemma update_ok (s : Db) (id : string) (data : PropertyData) (old : Property) :
  fault s (QUpdate id data) = None ->
  rows s !! id = Some old ->
  let property :=
    {| id := id; fields := data;
       createdAt := createdAt old; updatedAt := now s |} in
  Prisma.update (prisma fault) id data s =
    (Returned property,
     {| rows := <[id := property]> (rows s); now := now s |}).
Proof.
  intros H Hold. simpl. unfold update. rewrite call_ok; auto.
  rewrite Hold. reflexivity.
Qed.

End ClientFacts.

(** ** Create: validation *)

(** C4.  A create request whose [name] or [location] is missing or falsy
    (absent, [null], [""], [0], [false]) is answered with status 400 and the
    message "Name and location are required", whatever the persistence
    client: the handler returns before it calls the client, so no record is
    persisted and the state of the store is the one it started from. *)
Theorem post_requires_name_and_location
    {S : Type} (prisma : Prisma.Client S)
    (body : gmap string JS.Value) (s : S) :
  JS.truthy (JS.get body "name") = false \/
  JS.truthy (JS.get body "location") = false ->
  router_post prisma body s =
    (Returned
       (res_status_json 400 (Message "Name and location are required")),
     s).
Proof.
  intros [Hname | Hlocation]; unfold router_post, try_catch, ret.
  - rewrite Hname. reflexivity.
  - rewrite Hlocation. rewrite orb_true_r. reflexivity.
Qed.

Lemma post_requires_name_and_location_witness :
  let body : gmap string JS.Value := {[ "name" := JS.Str "Nikloo Heights" ]} in
  let s := MemDb.empty 0 in
  router_post (MemDb.prisma MemDb.healthy) body s =
    (Returned
       (res_status_json 400 (Message "Name and location are required")),
     s).
Proof.
  intros body s.
  apply (post_requires_name_and_location (MemDb.prisma MemDb.healthy) body s).
  right. reflexivity.
Defined.

(** ** Missing records *)

(** C6.  When the look-up finds no record under [id], get-by-id, update and
    delete each answer 404 with the message "Property not found" and make no
    further call on the persistence client, whatever the client.  On the
    in-memory store: when no record is stored under [id] (and the look-up
    does not fail), the three answer 404 and the store is unchanged. *)
Theorem missing_id_gives_404 (id : string) :
  let not_found :=
    Returned (res_status_json 404 (Message "Property not found")) in
  (forall (S : Type) (prisma : Prisma.Client S) (s s1 : S),
     Prisma.findUnique prisma id s = (Returned None, s1) ->
     router_get_id prisma id s = (not_found, s1) /\
     (forall body, router_put_id prisma id body s = (not_found, s1)) /\
     router_delete_id prisma id s = (not_found, s1)) /\
  (forall (fault : Db -> Query -> option Error) (s : Db),
     rows s !! id = None ->
     fault s (QFindUnique id) = None ->
     router_get_id (prisma fault) id s = (not_found, s) /\
     (forall body, router_put_id (prisma fault) id body s = (not_found, s)) /\
     router_delete_id (prisma fault) id s = (not_found, s)).
Proof.
  intros nf. split.
  - intros S prisma s s1. apply router_not_found.
  - intros fault s Hid Hok. apply router_not_found.
    rewrite findUnique_ok by assumption. rewrite Hid. reflexivity.
Qed.

Lemma missing_id_gives_404_witness :
  let body : gmap string JS.Value :=
    {[ "name" := JS.Str "Nikloo Heights"; "location" := JS.Str "Pune" ]} in
  let s := run healthy [Post body] (MemDb.empty 0) in
  let nf := Returned (res_status_json 404 (Message "Property not found")) in
  router_get_id (prisma healthy) "42" s = (nf, s) /\
  router_put_id (prisma healthy) "42" body s = (nf, s) /\
  router_delete_id (prisma healthy) "42" s = (nf, s).
Proof.
  intros body s nf.
  destruct (missing_id_gives_404 "42") as [_ Hmem].
  destruct (Hmem healthy s) as (Hget & Hput & Hdelete);
    [ reflexivity | reflexivity | ].
  split; [ exact Hget | split; [ apply Hput | exact Hdelete ] ].
Defined.

(** ** Persistence failures *)

(** C9.  Whatever the persistence client, when one of its calls throws the
    error [e] (leaving the client in state [s']), the handler that made the
    call answers 500 with its generic message and the message of [e]; and
    no handler ever ends by throwing. *)
Theorem persistence_error_gives_500
    {S : Type} (prisma : Prisma.Client S) (e : Error) (s s' : S) :
  let server_error (generic : string) :=
    Returned (res_status_json 500 (MessageError generic (message e))) in
  (forall body,
     JS.truthy (JS.get body "name") = true ->
     JS.truthy (JS.get body "location") = true ->
     Prisma.create prisma (create_data body) s = (Thrown e, s') ->
     router_post prisma body s =
       (server_error "Server error during property creation", s'))
  /\
  (forall query,
     Prisma.count prisma s = (Thrown e, s') ->
     router_get prisma query s = (server_error "Server error", s'))
  /\
  (forall query totalCount s1,
     Prisma.count prisma s = (Returned totalCount, s1) ->
     Prisma.findMany prisma desc
       (skip_of (page_of query) (limit_of query)) (limit_of query) s1 =
       (Thrown e, s') ->
     router_get prisma query s = (server_error "Server error", s'))
  /\
  (forall id,
     Prisma.findUnique prisma id s = (Thrown e, s') ->
     router_get_id prisma id s = (server_error "Server error", s') /\
     (forall body,
        router_put_id prisma id body s =
          (server_error "Server error during property update", s')) /\
     router_delete_id prisma id s =
       (server_error "Server error during property deletion", s'))
  /\
  (forall id body existingProperty s1,
     Prisma.findUnique prisma id s = (Returned (Some existingProperty), s1) ->
     Prisma.update prisma id (update_data body existingProperty) s1 =
       (Thrown e, s') ->
     router_put_id prisma id body s =
       (server_error "Server error during property update", s'))
  /\
  (forall id existingProperty s1,
     Prisma.findUnique prisma id s = (Returned (Some existingProperty), s1) ->
     Prisma.delete prisma id s1 = (Thrown e, s') ->
     router_delete_id prisma id s =
       (server_error "Server error during property deletion", s'))
  /\
  (forall body query id,
     (exists r t, router_post prisma body s = (Returned r, t)) /\
     (exists r t, router_get prisma query s = (Returned r, t)) /\
     (exists r t, router_get_id prisma id s = (Returned r, t)) /\
     (exists r t, router_put_id prisma id body s = (Returned r, t)) /\
     (exists r t, router_delete_id prisma id s = (Returned r, t))).
Proof.
  intros server_error.
  split; [ | split; [ | split; [ | split; [ | split; [ | split ] ] ] ] ].
  - intros body. apply router_post_failed.
  - intros query H. unfold_handler. rewrite H. reflexivity.
  - intros query n s1 H H0. unfold_handler. rewrite H, H0. reflexivity.
  - intros id H. repeat split; intros; unfold_handler; rewrite H; reflexivity.
  - intros id body ex s1 H H0. unfold_handler. rewrite H, H0. reflexivity.
  - intros id ex s1 H H0. unfold_handler. rewrite H, H0. reflexivity.
  - intros body query id.
    auto using router_post_returns, router_get_returns, router_get_id_returns,
      router_put_id_returns, router_delete_id_returns.
Qed.

Lemma persistence_error_gives_500_witness :
  let down := prisma (unreachable "Can't reach database server") in
  let half := prisma (degraded "Transaction failed") in
  let body : gmap string JS.Value :=
    {[ "name" := JS.Str "Nikloo Heights"; "location" := JS.Str "Pune" ]} in
  let s := run healthy [Post body] (MemDb.empty 0) in
  let e500 (msg detail : string) :=
    Returned (res_status_json 500 (MessageError msg detail)) in
  (router_post down body s =
     (e500 "Server error during property creation"
        "Can't reach database server", s) /\
   router_get down ∅ s =
     (e500 "Server error" "Can't reach database server", s) /\
   router_get_id down "0" s =
     (e500 "Server error" "Can't reach database server", s)) /\
  (router_get half ∅ s = (e500 "Server error" "Transaction failed", s) /\
   router_put_id half "0" ∅ s =
     (e500 "Server error during property update" "Transaction failed", s) /\
   router_delete_id half "0" s =
     (e500 "Server error during property deletion" "Transaction failed", s)).
Proof.
  intros down half body s e500. split.
  - destruct (persistence_error_gives_500 down
                {| message := "Can't reach database server" |} s s)
      as (Hpost & Hcount & _ & Hfind & _).
    split; [ | split ].
    + apply Hpost; reflexivity.
    + apply Hcount; reflexivity.
    + apply (Hfind "0"); reflexivity.
  - destruct (persistence_error_gives_500 half
                {| message := "Transaction failed" |} s s)
      as (_ & _ & Hmany & _ & Hupdate & Hdelete & _).
    split; [ | split ].
    + apply (Hmany ∅ 1 s); reflexivity.
    + eapply Hupdate; reflexivity.
    + eapply Hdelete; reflexivity.
Defined.

(** ** Update: the field-level merge *)

(** C1.  The [data] that an update writes merges the body into the existing
    record asymmetrically: [name], [location] and [status] keep the stored
    value when the supplied one is falsy and take the supplied one when it
    is truthy; [brochure], [image], [model3d] and [availableApartments] take
    whatever value the body holds, falsy or not (0, [""], [null]), and keep
    the stored value only when the body has no such field; in particular
    [availableApartments: 0] sets the count to 0.  Whatever the persistence
    client, the handler writes exactly this [data] for the record it looked
    up and answers 200 with the record the write returns; on the in-memory
    store the record stored under [id] then holds this [data], and the
    other records are untouched. *)
Theorem put_merges_field_by_field
    (body : gmap string JS.Value) (existing : Property) :
  let new := update_data body existing in
  let old := fields existing in
  (* truthy, else existing *)
  ((JS.truthy (JS.get body "name") = false -> name new = name old) /\
   (JS.truthy (JS.get body "name") = true -> name new = JS.get body "name") /\
   (JS.truthy (JS.get body "location") = false ->
      location new = location old) /\
   (JS.truthy (JS.get body "location") = true ->
      location new = JS.get body "location") /\
   (JS.truthy (JS.get body "status") = false -> status new = status old) /\
   (JS.truthy (JS.get body "status") = true ->
      status new = JS.get body "status")) /\
  (* present, else existing *)
  ((forall v, body !! "brochure" = Some v -> v <> JS.Undefined ->
      brochure new = v) /\
   (body !! "brochure" = None -> brochure new = brochure old) /\
   (forall v, body !! "image" = Some v -> v <> JS.Undefined ->
      image new = v) /\
   (body !! "image" = None -> image new = image old) /\
   (forall v, body !! "model3d" = Some v -> v <> JS.Undefined ->
      model3d new = v) /\
   (body !! "model3d" = None -> model3d new = model3d old) /\
   (forall v, body !! "availableApartments" = Some v -> v <> JS.Undefined ->
      availableApartments new = v) /\
   (body !! "availableApartments" = None ->
      availableApartments new = availableApartments old) /\
   (body !! "availableApartments" = Some (JS.Num 0) ->
      availableApartments new = JS.Num 0)) /\
  (* the handler, over any client *)
  (forall (S : Type) (prisma : Prisma.Client S) (id : string) (s s1 s2 : S)
          (property : Property),
     Prisma.findUnique prisma id s = (Returned (Some existing), s1) ->
     Prisma.update prisma id new s1 = (Returned property, s2) ->
     router_put_id prisma id body s =
       (Returned
          (res_json
             (MessageProperty "Property updated successfully" property)),
        s2)) /\
  (* the handler, over the in-memory store *)
  (forall (fault : Db -> Query -> option Error) (s : Db) (id : string),
     rows s !! id = Some existing ->
     fault s (QFindUnique id) = None ->
     fault s (QUpdate id new) = None ->
     exists property s',
       router_put_id (prisma fault) id body s =
         (Returned
            (res_json
               (MessageProperty "Property updated successfully" property)),
          s') /\
       fields property = new /\
       rows s' !! id = Some property /\
       (forall id', id' <> id -> rows s' !! id' = rows s !! id')).
Proof.
  intros new old.
  split; [ | split; [ | split ] ].
  - subst new old. simpl.
    repeat split; intros; auto using or_truthy, or_falsy.
  - subst new old. simpl.
    repeat split; intros;
      repeat match goal with
        | H : _ !! _ = Some _ |- _ => apply get_present in H; rewrite H
        | H : _ !! _ = None |- _ => apply get_absent in H; rewrite H
        end;
      auto using if_defined_present.
  - intros S prisma id s s1 s2 property. apply router_put_id_updated.
  - intros fault s id Hid Hfind Hupd.
    eexists _, _. split.
    { eapply router_put_id_updated.
      - rewrite findUnique_ok by assumption. rewrite Hid. reflexivity.
      - apply update_ok; eassumption. }
    split; [ reflexivity | ].
    split; [ apply lookup_insert_eq | ].
    intros id' Hne. simpl. apply lookup_insert_ne. congruence.
Qed.

Lemma put_merges_field_by_field_witness :
  let created : gmap string JS.Value :=
    {[ "name" := JS.Str "Nikloo Heights"; "location" := JS.Str "Pune";
       "availableApartments" := JS.Num 12 ]} in
  let s := run healthy [Post created] (MemDb.empty 0) in
  let body : gmap string JS.Value :=
    {[ "name" := JS.Str ""; "availableApartments" := JS.Num 0 ]} in
  exists property s',
    router_put_id (prisma healthy) "0" body s =
      (Returned
         (res_json (MessageProperty "Property updated successfully" property)),
       s') /\
    rows s' !! "0" = Some property /\
    name (fields property) = JS.Str "Nikloo Heights" /\
    availableApartments (fields property) = JS.Num 0.
Proof.
  intros created s body.
  destruct (put_merges_field_by_field body
              {| id := "0"; fields := create_data created;
                 createdAt := 0; updatedAt := 0 |})
    as ((Hname & _) & (_ & _ & _ & _ & _ & _ & _ & _ & Hzero) & _ & Hmem).
  destruct (Hmem healthy s "0") as (property & s' & Hres & Hfields & Hrow & _);
    [ reflexivity | reflexivity | reflexivity | ].
  exists property, s'. rewrite Hfields.
  split; [ exact Hres | ].
  split; [ exact Hrow | ].
  split; [ rewrite Hname; reflexivity | apply Hzero; reflexivity ].
Defined.

(** ** Create: defaults *)

(** C3.  For a create request whose body holds just a truthy [name] and a
    truthy [location] (two non-empty strings, say), the [data] that the
    handler writes has [null] for [brochure], [image] and [model3d], 0 for
    [availableApartments] and "available" for [status]; whatever the
    persistence client, the handler answers 201 with the record the write
    returns; on the in-memory store the new record, with this [data], is
    persisted under an id that was free. *)
Theorem post_defaults_optional_fields (n l : JS.Value) :
  let body : gmap string JS.Value := {[ "name" := n; "location" := l ]} in
  let data :=
    {| name := n; location := l;
       brochure := JS.Null; image := JS.Null; model3d := JS.Null;
       availableApartments := JS.Num 0;
       status := JS.Str "available" |} in
  JS.truthy n = true ->
  JS.truthy l = true ->
  create_data body = data /\
  (forall (S : Type) (prisma : Prisma.Client S) (s s' : S)
          (property : Property),
     Prisma.create prisma data s = (Returned property, s') ->
     router_post prisma body s =
       (Returned
          (res_status_json 201
             (MessageProperty "Property created successfully" property)),
        s')) /\
  (forall (fault : Db -> Query -> option Error) (s : Db),
     fault s (QCreate data) = None ->
     exists property s',
       router_post (prisma fault) body s =
         (Returned
            (res_status_json 201
               (MessageProperty "Property created successfully" property)),
          s') /\
       fields property = data /\
       rows s !! id property = None /\
       rows s' !! id property = Some property /\
       (forall id', id' <> id property -> rows s' !! id' = rows s !! id')).
Proof.
  intros body data Hn Hl.
  assert (Hdata : create_data body = data) by reflexivity.
  assert (Hname : JS.truthy (JS.get body "name") = true) by exact Hn.
  assert (Hloc : JS.truthy (JS.get body "location") = true) by exact Hl.
  split; [ exact Hdata | split ].
  - intros S prisma s s' property H.
    apply router_post_created; assumption.
  - intros fault s Hok. eexists _, _. split.
    { apply router_post_created; [ assumption | assumption | ].
      apply create_ok. exact Hok. }
    split; [ reflexivity | ]. simpl.
    split; [ apply create_fresh | ].
    split; [ apply lookup_insert_eq | ].
    intros id' Hne. apply lookup_insert_ne. congruence.
Qed.

Lemma post_defaults_optional_fields_witness :
  let body : gmap string JS.Value :=
    {[ "name" := JS.Str "X"; "location" := JS.Str "Y" ]} in
  exists property s',
    router_post (prisma healthy) body (MemDb.empty 0) =
      (Returned
         (res_status_json 201
            (MessageProperty "Property created successfully" property)),
       s') /\
    rows s' !! id property = Some property /\
    fields property =
      {| name := JS.Str "X"; location := JS.Str "Y";
         brochure := JS.Null; image := JS.Null; model3d := JS.Null;
         availableApartments := JS.Num 0;
         status := JS.Str "available" |}.
Proof.
  intros body.
  destruct (post_defaults_optional_fields (JS.Str "X") (JS.Str "Y"))
    as (_ & _ & Hmem); [ reflexivity | reflexivity | ].
  destruct (Hmem healthy (MemDb.empty 0))
    as (property & s' & Hres & Hfields & _ & Hrow & _); [ reflexivity | ].
  exists property, s'. auto.
Defined.

Lemma create_data_delete (body : gmap string JS.Value) (k : string) :
  k ∈ ["brochure"; "image"; "model3d"; "availableApartments"; "status"] ->
  JS.truthy (JS.get body k) = false ->
  create_data (base.delete k body) = create_data body /\
  JS.get (base.delete k body) "name" = JS.get body "name" /\
  JS.get (base.delete k body) "location" = JS.get body "location".
Proof.
  intros Hk Hfalsy.
  repeat (apply elem_of_cons in Hk as [-> | Hk]);
    [ .. | apply elem_of_nil in Hk; contradiction ];
    (split; [ | split; apply get_delete_ne; discriminate ]);
    unfold create_data;
    rewrite get_delete_eq, !get_delete_ne by discriminate;
    rewrite (or_falsy (JS.get body _) _ Hfalsy); reflexivity.
Qed.

(** C10.  On create every optional field is defaulted by truthiness: in the
    [data] of a create request that passes validation, a falsy supplied
    [brochure], [image] or [model3d] becomes [null], a falsy
    [availableApartments] becomes 0 and a falsy [status] becomes
    "available"; the [data], and with it the whole run of the handler over
    any persistence client, is that of the same request without the field.
    On the in-memory store the persisted record holds this [data]. *)
Theorem post_defaults_falsy_optional_fields (body : gmap string JS.Value) :
  JS.truthy (JS.get body "name") = true ->
  JS.truthy (JS.get body "location") = true ->
  let data := create_data body in
  ((JS.truthy (JS.get body "brochure") = false -> brochure data = JS.Null) /\
   (JS.truthy (JS.get body "image") = false -> image data = JS.Null) /\
   (JS.truthy (JS.get body "model3d") = false -> model3d data = JS.Null) /\
   (JS.truthy (JS.get body "availableApartments") = false ->
      availableApartments data = JS.Num 0) /\
   (JS.truthy (JS.get body "status") = false ->
      status data = JS.Str "available")) /\
  (forall k,
     k ∈ ["brochure"; "image"; "model3d"; "availableApartments"; "status"] ->
     JS.truthy (JS.get body k) = false ->
     create_data (base.delete k body) = data /\
     forall (S : Type) (prisma : Prisma.Client S) (s : S),
       router_post prisma (base.delete k body) s = router_post prisma body s) /\
  (forall (S : Type) (prisma : Prisma.Client S) (s s' : S)
          (property : Property),
     Prisma.create prisma data s = (Returned property, s') ->
     router_post prisma body s =
       (Returned
          (res_status_json 201
             (MessageProperty "Property created successfully" property)),
        s')) /\
  (forall (fault : Db -> Query -> option Error) (s : Db),
     fault s (QCreate data) = None ->
     exists property s',
       router_post (prisma fault) body s =
         (Returned
            (res_status_json 201
               (MessageProperty "Property created successfully" property)),
          s') /\
       fields property = data /\
       rows s' !! id property = Some property).
Proof.
  intros Hn Hl data.
  split; [ | split; [ | split ] ].
  - subst data. simpl. repeat split; apply or_falsy.
  - intros k Hk Hfalsy.
    destruct (create_data_delete body k Hk Hfalsy) as (Hdata & Hname & Hloc).
    split; [ exact Hdata | ].
    intros S prisma s. unfold router_post. rewrite Hdata, Hname, Hloc.
    reflexivity.
  - intros S prisma s s' property. apply router_post_created; assumption.
  - intros fault s Hok. eexists _, _. split.
    { apply router_post_created; [ assumption | assumption | ].
      apply create_ok. exact Hok. }
    split; [ reflexivity | apply lookup_insert_eq ].
Qed.

Lemma post_defaults_falsy_optional_fields_witness :
  let body : gmap string JS.Value :=
    {[ "name" := JS.Str "X"; "location" := JS.Str "Y";
       "status" := JS.Str ""; "brochure" := JS.Null;
       "availableApartments" := JS.Bool false ]} in
  let s := MemDb.empty 0 in
  exists property s',
    router_post (prisma healthy) body s =
      (Returned
         (res_status_json 201
            (MessageProperty "Property created successfully" property)),
       s') /\
    brochure (fields property) = JS.Null /\
    availableApartments (fields property) = JS.Num 0 /\
    status (fields property) = JS.Str "available" /\
    router_post (prisma healthy) (base.delete "status" body) s =
      router_post (prisma healthy) body s.
Proof.
  intros body s.
  destruct (post_defaults_falsy_optional_fields body)
    as ((Hb & _ & _ & Ha & Hs) & Hsame & _ & Hmem);
    [ reflexivity | reflexivity | ].
  destruct (Hmem healthy s) as (property & s' & Hres & Hfields & _);
    [ reflexivity | ].
  exists property, s'. rewrite Hfields.
  split; [ exact Hres | ].
  split; [ apply Hb; reflexivity | ].
  split; [ apply Ha; reflexivity | ].
  split; [ apply Hs; reflexivity | ].
  apply (Hsame "status"); [ | reflexivity ].
  apply list_elem_of_In. simpl. tauto.
Defined.

(** ** Create, then get by id *)

(** C8.  On the in-memory store: after a create that answered 201, the
    response carries the created record, and a get-by-id with that record's
    id (the look-up not failing) answers 200 with the very same record,
    every field and both timestamps; the timestamps are there and agree:
    both are the time of the create. *)
Theorem create_then_get_by_id
    (fault : Db -> Query -> option Error) (body : gmap string JS.Value)
    (s s' : Db) (response : Response) :
  router_post (prisma fault) body s = (Returned response, s') ->
  statusCode response = 201 ->
  exists property,
    json response = MessageProperty "Property created successfully" property /\
    (fault s' (QFindUnique (id property)) = None ->
     router_get_id (prisma fault) (id property) s' =
       (Returned (res_json (OneProperty property)), s')) /\
    createdAt property = now s /\
    updatedAt property = createdAt property.
Proof.
  unfold router_post, try_catch, bind, ret.
  destruct (negb _ || negb _).
  { intros H Hcode. inversion H; subst. discriminate Hcode. }
  simpl. unfold create, call.
  destruct (fault s (QCreate (create_data body))) as [e | ] eqn:Hfault.
  { intros H Hcode. inversion H; subst. discriminate Hcode. }
  intros H _. inversion H; subst; clear H.
  eexists. split; [ reflexivity | ].
  split; [ | split; reflexivity ].
  intros Hok. apply router_get_id_found.
  rewrite findUnique_ok by assumption.
  simpl. rewrite lookup_insert_eq. reflexivity.
Qed.

Lemma create_then_get_by_id_witness :
  let body : gmap string JS.Value :=
    {[ "name" := JS.Str "X"; "location" := JS.Str "Y" ]} in
  let created := router_post (prisma healthy) body (MemDb.empty 7) in
  exists property,
    fst created =
      Returned
        (res_status_json 201
           (MessageProperty "Property created successfully" property)) /\
    router_get_id (prisma healthy) (id property) (snd created) =
      (Returned (res_json (OneProperty property)), snd created) /\
    createdAt property = 7 /\
    updatedAt property = 7.
Proof.
  intros body created.
  destruct (create_then_get_by_id healthy body (MemDb.empty 7) (snd created)
              {| statusCode := 201;
                 json := MessageProperty "Property created successfully"
                           {| id := "0"; fields := create_data body;
                              createdAt := 7; updatedAt := 7 |} |})
    as (property & Hjson & Hget & Hc & Hu); [ reflexivity | reflexivity | ].
  exists property. simpl in Hjson. inversion Hjson; subst property.
  split; [ reflexivity | ].
  split; [ apply Hget; reflexivity | ].
  split; reflexivity.
Defined.

(** ** The invariant on [name] and [location] *)

Lemma insert_named_and_located (s : Db) (id : string) (property : Property) :
  named_and_located s ->
  JS.truthy (name (fields property)) = true ->
  JS.truthy (location (fields property)) = true ->
  named_and_located {| rows := <[id := property]> (rows s); now := now s |}.
Proof.
  intros Hinv Hn Hl id' property'. simpl.
  destruct (decide (id = id')) as [-> | Hne].
  - rewrite lookup_insert_eq. intros [= <-]. auto.
  - rewrite lookup_insert_ne by assumption. apply Hinv.
Qed.

Lemma router_post_invariant fault body s :
  named_and_located s ->
  named_and_located (snd (router_post (prisma fault) body s)).
Proof.
  intros Hinv. unfold_handler.
  destruct (JS.truthy (JS.get body "name")) eqn:Hn; [ | exact Hinv ].
  destruct (JS.truthy (JS.get body "location")) eqn:Hl; [ | exact Hinv ].
  simpl. unfold create, call.
  destruct (fault s _); [ exact Hinv | ].
  apply insert_named_and_located; assumption.
Qed.

Lemma router_get_invariant fault query s :
  named_and_located s ->
  named_and_located (snd (router_get (prisma fault) query s)).
Proof.
  intros Hinv. unfold_handler. simpl. unfold count, findMany, call.
  destruct (fault s QCount); [ exact Hinv | ].
  destruct (fault s _); exact Hinv.
Qed.

Lemma router_get_id_invariant fault id s :
  named_and_located s ->
  named_and_located (snd (router_get_id (prisma fault) id s)).
Proof.
  intros Hinv. unfold_handler. simpl. unfold findUnique, call.
  destruct (fault s _); [ exact Hinv | ].
  destruct (rows s !! id); exact Hinv.
Qed.

Lemma update_data_keeps_name_and_location
    (body : gmap string JS.Value) (existing : Property) :
  (JS.truthy (name (fields existing)) = true ->
   JS.truthy (name (update_data body existing)) = true) /\
  (JS.truthy (location (fields existing)) = true ->
   JS.truthy (location (update_data body existing)) = true).
Proof. split; apply truthy_or. Qed.

Lemma router_put_id_invariant fault id body s :
  named_and_located s ->
  named_and_located (snd (router_put_id (prisma fault) id body s)).
Proof.
  intros Hinv. unfold_handler. simpl. unfold findUnique, update, call.
  destruct (fault s (QFindUnique id)); [ exact Hinv | ].
  destruct (rows s !! id) as [existing | ] eqn:Hid; [ | exact Hinv ].
  destruct (fault s (QUpdate id _)); [ exact Hinv | ].
  rewrite Hid. destruct (Hinv id existing Hid) as [Hn Hl].
  apply insert_named_and_located;
    [ assumption
    | apply update_data_keeps_name_and_location; assumption .. ].
Qed.

Lemma router_delete_id_invariant fault id s :
  named_and_located s ->
  named_and_located (snd (router_delete_id (prisma fault) id s)).
Proof.
  intros Hinv. unfold_handler. simpl. unfold findUnique, delete, call.
  destruct (fault s (QFindUnique id)); [ exact Hinv | ].
  destruct (rows s !! id) as [existing | ] eqn:Hid; [ | exact Hinv ].
  destruct (fault s (QDelete id)); [ exact Hinv | ].
  rewrite Hid. intros id' property'. simpl.
  intros H. apply lookup_delete_Some in H as [_ H]. eapply Hinv; eassumption.
Qed.

Lemma serve_invariant fault ev s :
  named_and_located s -> named_and_located (snd (serve fault ev s)).
Proof.
  intros Hinv.
  destruct ev as [body | query | id | id body | id | dt]; simpl.
  - pose proof (router_post_invariant fault body s Hinv) as H.
    destruct (router_post (prisma fault) body s) as [[r | e] s']; exact H.
  - pose proof (router_get_invariant fault query s Hinv) as H.
    destruct (router_get (prisma fault) query s) as [[r | e] s']; exact H.
  - pose proof (router_get_id_invariant fault id s Hinv) as H.
    destruct (router_get_id (prisma fault) id s) as [[r | e] s']; exact H.
  - pose proof (router_put_id_invariant fault id body s Hinv) as H.
    destruct (router_put_id (prisma fault) id body s) as [[r | e] s']; exact H.
  - pose proof (router_delete_id_invariant fault id s Hinv) as H.
    destruct (router_delete_id (prisma fault) id s) as [[r | e] s']; exact H.
  - exact Hinv.
Qed.

Lemma run_invariant fault evs s :
  named_and_located s -> named_and_located (run fault evs s).
Proof.
  revert s. induction evs as [ | ev evs IH]; intros s Hinv; simpl.
  - exact Hinv.
  - apply IH. apply serve_invariant. exact Hinv.
Qed.

(** C7.  Create writes nothing when the [name] or [location] of its [data]
    is falsy, and the [data] of an update has a truthy [name] and [location]
    whenever the existing record has.  So on the in-memory store, serving a
    request (or letting time pass) preserves the invariant that every stored
    record has a truthy [name] and [location]; and in every store reached
    from the empty one by any sequence of create, list, get, update and
    delete requests, whichever calls of the client fail, no record has an
    empty ([""]), [null] or missing [name] or [location]. *)
Theorem name_and_location_never_empty :
  (forall body,
     JS.truthy (name (create_data body)) = false \/
     JS.truthy (location (create_data body)) = false ->
     forall (S : Type) (prisma : Prisma.Client S) (s : S),
       router_post prisma body s =
         (Returned
            (res_status_json 400 (Message "Name and location are required")),
          s)) /\
  (forall body existing,
     (JS.truthy (name (fields existing)) = true ->
      JS.truthy (name (update_data body existing)) = true) /\
     (JS.truthy (location (fields existing)) = true ->
      JS.truthy (location (update_data body existing)) = true)) /\
  (forall fault ev s,
     named_and_located s -> named_and_located (snd (serve fault ev s))) /\
  (forall fault evs t0 id property,
     rows (run fault evs (MemDb.empty t0)) !! id = Some property ->
     let n := name (fields property) in
     let l := location (fields property) in
     (JS.truthy n = true /\
      n <> JS.Str "" /\ n <> JS.Null /\ n <> JS.Undefined) /\
     (JS.truthy l = true /\
      l <> JS.Str "" /\ l <> JS.Null /\ l <> JS.Undefined)).
Proof.
  split; [ | split; [ | split ] ].
  - intros body H S prisma s. apply router_post_invalid. exact H.
  - apply update_data_keeps_name_and_location.
  - apply serve_invariant.
  - intros fault evs t0 id property Hrow.
    assert (Hinv : named_and_located (run fault evs (MemDb.empty t0))).
    { apply run_invariant. intros id' property'. simpl.
      rewrite lookup_empty. discriminate. }
    destruct (Hinv id property Hrow) as [Hn Hl].
    split; (split; [ assumption | apply truthy_nonempty; assumption ]).
Qed.

Lemma name_and_location_never_empty_witness :
  let created : gmap string JS.Value :=
    {[ "name" := JS.Str "Nikloo Heights"; "location" := JS.Str "Pune" ]} in
  let blank : gmap string JS.Value :=
    {[ "name" := JS.Str ""; "location" := JS.Null;
       "status" := JS.Str "sold" ]} in
  let evs := [Post created; Tick 5; Post blank; Put "0" blank] in
  exists property,
    rows (run healthy evs (MemDb.empty 0)) !! "0" = Some property /\
    status (fields property) = JS.Str "sold" /\
    name (fields property) <> JS.Str "" /\
    location (fields property) <> JS.Null.
Proof.
  intros created blank evs.
  destruct name_and_location_never_empty as (_ & _ & _ & Hreach).
  eexists. split; [ reflexivity | ].
  split; [ reflexivity | ].
  edestruct (Hreach healthy evs 0 "0") as [(_ & Hn & _) (_ & _ & Hl & _)];
    [ reflexivity | ].
  split; [ exact Hn | exact Hl ].
Defined.

(** ** List: pagination *)

Lemma ceil_div_pos (n l : Z) :
  0 < l -> l * (JS.ceil_div n l - 1) < n <= l * JS.ceil_div n l.
Proof.
  intros Hl. unfold JS.ceil_div.
  pose proof (Z.div_mod (- n) l ltac:(lia)) as Hdiv.
  pose proof (Z.mod_pos_bound (- n) l Hl) as Hmod.
  lia.
Qed.

Lemma ceil_div_neg (n l : Z) :
  l < 0 -> l * JS.ceil_div n l <= n < l * (JS.ceil_div n l - 1).
Proof.
  intros Hl. unfold JS.ceil_div.
  pose proof (Z.div_mod (- n) l ltac:(lia)) as Hdiv.
  pose proof (Z.mod_neg_bound (- n) l Hl) as Hmod.
  lia.
Qed.

Lemma number_or_nonzero (n : JS.Number) (d : Z) :
  d <> 0 -> JS.number_or n d <> 0.
Proof.
  intros Hd. destruct n as [ | z]; simpl; [ assumption | ].
  destruct (Z.eqb_spec z 0); assumption.
Qed.

Lemma ordered_transitive (o : SortOrder) : Transitive (ordered o).
Proof. intros a b c. destruct o; simpl; lia. Qed.

Lemma ordered_total (o : SortOrder) : Total (ordered o).
Proof. intros a b. destruct o; simpl; lia. Qed.

Lemma all_rows_sorted (o : SortOrder) (s : Db) :
  StronglySorted (ordered o) (all_rows o s).
Proof.
  apply (@StronglySorted_merge_sort _ (ordered o) _
           (ordered_transitive o) (ordered_total o)).
Qed.

Lemma page_sorted (o : SortOrder) (s : Db) (skip take : nat) :
  StronglySorted (ordered o) (firstn take (skipn skip (all_rows o s))).
Proof.
  pose proof (all_rows_sorted o s) as H.
  rewrite <- (take_drop skip (all_rows o s)) in H.
  apply StronglySorted_app_1_r in H.
  rewrite <- (take_drop take (skipn skip (all_rows o s))) in H.
  apply StronglySorted_app_1_l in H. exact H.
Qed.

(** C2, as the handler has it.  For a list request whose resolved page [p],
    limit [l] and product [(p-1)*l] are safe integers ([l] is never 0):
    whatever the persistence client, the handler counts the records (a safe
    integer [n]), asks for the records by [createdAt] descending with
    [skip = (p-1)*l] and [take = l], and answers 200 with what it gets and
    the descriptor [currentPage = p], [totalPages = ceil(n/l)],
    [totalItems = n], [itemsPerPage = l], [hasNextPage = (p < ceil(n/l))],
    [hasPrevPage = (p > 1)].  On the in-memory store, when [p >= 1] and
    [l >= 1], the records sent are those that follow the first [(p-1)*l] of
    all records taken by [createdAt] descending, at most [l] of them. *)
Theorem get_list_paginates (query : gmap string QueryValue) :
  let p := page_of query in
  let l := limit_of query in
  let descriptor (n : Z) :=
    {| currentPage := p;
       totalPages := JS.ceil_div n l;
       totalItems := n;
       itemsPerPage := l;
       hasNextPage := p <? JS.ceil_div n l;
       hasPrevPage := p >? 1 |} in
  JS.safe p ->
  JS.safe l ->
  JS.safe ((p - 1) * l) ->
  l <> 0 /\
  (forall n,
     (0 < l -> l * (JS.ceil_div n l - 1) < n <= l * JS.ceil_div n l) /\
     (l < 0 -> l * JS.ceil_div n l <= n < l * (JS.ceil_div n l - 1))) /\
  (forall (S : Type) (prisma : Prisma.Client S) (s s1 s2 : S) (n : Z)
          (properties : list Property),
     JS.safe n ->
     Prisma.count prisma s = (Returned n, s1) ->
     Prisma.findMany prisma desc ((p - 1) * l) l s1 =
       (Returned properties, s2) ->
     router_get prisma query s =
       (Returned (res_json (Page properties (descriptor n))), s2)) /\
  (forall (fault : Db -> Query -> option Error) (s : Db),
     JS.safe (Z.of_nat (size (rows s))) ->
     fault s QCount = None ->
     fault s (QFindMany desc ((p - 1) * l) l) = None ->
     1 <= p ->
     1 <= l ->
     exists properties,
       router_get (prisma fault) query s =
         (Returned
            (res_json
               (Page properties (descriptor (Z.of_nat (size (rows s)))))),
          s) /\
       properties =
         take (Z.to_nat l) (drop (Z.to_nat ((p - 1) * l)) (all_rows desc s)) /\
       Z.of_nat (length properties) <= l /\
       StronglySorted (fun a b => createdAt b <= createdAt a) properties /\
       all_rows desc s ≡ₚ (map_to_list (rows s)).*2).
Proof.
  intros p l descriptor _ _ _.
  split; [ apply number_or_nonzero; discriminate | ].
  split; [ intros n; split; [ apply ceil_div_pos | apply ceil_div_neg ] | ].
  split.
  - intros S prisma s s1 s2 n properties _. apply router_get_page.
  - intros fault s _ Hcount Hmany Hp Hl.
    eexists. split.
    { eapply router_get_page.
      - simpl. unfold count. rewrite call_ok by assumption. reflexivity.
      - simpl. unfold findMany. rewrite call_ok by exact Hmany.
        reflexivity. }
    split; [ reflexivity | ].
    split; [ rewrite length_take; lia | ].
    split; [ apply (page_sorted desc) | apply merge_sort_Permutation ].
Qed.

Lemma get_list_paginates_witness :
  let body : gmap string JS.Value :=
    {[ "name" := JS.Str "X"; "location" := JS.Str "Y" ]} in
  let s :=
    run healthy (List.concat (replicate 25%nat [Post body; Tick 1]))
      (MemDb.empty 0) in
  let query : gmap string QueryValue :=
    {[ "page" := QString "3"; "limit" := QString "10" ]} in
  exists properties,
    router_get (prisma healthy) query s =
      (Returned
         (res_json
            (Page properties
               {| currentPage := 3; totalPages := 3; totalItems := 25;
                  itemsPerPage := 10; hasNextPage := false;
                  hasPrevPage := true |})),
       s) /\
    createdAt <$> properties = [4; 3; 2; 1; 0].
Proof.
  intros body s query.
  destruct (get_list_paginates query) as (_ & _ & _ & Hmem);
    [ vm_compute; split; reflexivity .. | ].
  destruct (Hmem healthy s) as (properties & Hres & Hprops & _);
    [ vm_compute; split; reflexivity | reflexivity | reflexivity
    | vm_compute; discriminate .. | ].
  exists properties. split; [ exact Hres | ].
  rewrite Hprops. vm_compute. reflexivity.
Defined.

(** C2 as stated fails on a negative resolved limit: [limit=-5] resolves to
    [l = -5], the request is answered 200 with a page and
    [itemsPerPage = -5], and no page has at most -5 records. *)
Lemma get_list_negative_limit_counterexample :
  let body : gmap string JS.Value :=
    {[ "name" := JS.Str "X"; "location" := JS.Str "Y" ]} in
  let s := run healthy [Post body] (MemDb.empty 0) in
  let query : gmap string QueryValue := {[ "limit" := QString "-5" ]} in
  limit_of query = -5 /\
  exists properties pagination,
    router_get (prisma healthy) query s =
      (Returned (res_json (Page properties pagination)), s) /\
    itemsPerPage pagination = -5 /\
    totalPages pagination = 0 /\
    ~ (Z.of_nat (length properties) <= limit_of query).
Proof.
  intros body s query. split; [ reflexivity | ].
  eexists _, _. split; [ reflexivity | ].
  split; [ reflexivity | ].
  split; [ reflexivity | ].
  vm_compute. intros H. apply H. reflexivity.
Defined.

(** ** List: the page and limit parameters *)

Example parseInt_examples :
  JS.parseInt "12" = JS.Int 12 /\
  JS.parseInt "  -5abc" = JS.Int (-5) /\
  JS.parseInt "+7.9" = JS.Int 7 /\
  JS.parseInt "0x1F" = JS.Int 31 /\
  JS.parseInt "-0" = JS.Int 0 /\
  JS.parseInt (String (ascii_of_nat 194) (String (ascii_of_nat 160) "3")) =
    JS.Int 3 /\
  JS.parseInt "" = JS.NaN /\
  JS.parseInt "abc" = JS.NaN /\
  JS.parseInt "0x" = JS.NaN /\
  JS.parseInt "undefined" = JS.NaN /\
  JS.parseInt (to_string (QArray ["2"; "9"])) = JS.Int 2.
Proof. repeat split. Qed.

Lemma parseInt_non_numeric (text : string) :
  (forall c rest d,
     snd (JS.strip_sign (JS.trim_start text)) = String c rest ->
     JS.digit_value c = Some d -> 10 <= d) ->
  JS.parseInt text = JS.NaN.
Proof.
  unfold JS.parseInt.
  destruct (JS.strip_sign (JS.trim_start text)) as [sign s1]. simpl.
  intros H. destruct s1 as [ | c rest]; [ reflexivity | ].
  assert (Hc : forall d, JS.digit_value c = Some d -> 10 <= d)
    by (intros d; apply (H c rest d); reflexivity).
  assert (Hradix : JS.strip_radix (String c rest) = (10, String c rest)).
  { unfold JS.strip_radix.
    destruct c as [[] [] [] [] [] [] [] []]; try reflexivity.
    specialize (Hc 0 eq_refl). lia. }
  rewrite Hradix. simpl.
  destruct (JS.digit_value c) as [d | ]; [ | reflexivity ].
  specialize (Hc d eq_refl).
  destruct (Z.ltb_spec d 10); [ lia | reflexivity ].
Qed.

(** [parseInt] reads back the decimal numeral of every integer. *)

Lemma read_digits_acc (d : Decimal.uint) (acc : positive) :
  JS.read_digits 10 (NilEmpty.string_of_uint d) (Some (Z.pos acc)) =
  Some (Z.pos (Pos.of_uint_acc d acc)).
Proof.
  revert acc. induction d; intros acc; simpl; [ reflexivity | .. ];
    rewrite <- IHd; do 2 f_equal;
    match goal with
    | |- context [Z.of_nat (nat_of_ascii ?c)] =>
        let v := eval vm_compute in (Z.of_nat (nat_of_ascii c)) in
        change (Z.of_nat (nat_of_ascii c)) with v
    end; lia.
Qed.

Lemma read_digits_from_zero (d : Decimal.uint) :
  JS.read_digits 10 (NilEmpty.string_of_uint d) (Some 0) =
  Some (Z.of_N (Pos.of_uint d)).
Proof.
  induction d; simpl; [ reflexivity | exact IHd | .. ];
    apply read_digits_acc.
Qed.

Lemma read_digits_numeral (d : Decimal.uint) :
  d <> Decimal.Nil ->
  JS.read_digits 10 (NilEmpty.string_of_uint d) None =
  Some (Z.of_N (Pos.of_uint d)).
Proof.
  destruct d; intros H; simpl; [ congruence | .. ];
    solve [ apply read_digits_from_zero | apply read_digits_acc ].
Qed.

Lemma trim_start_ascii (a : ascii) (rest : string) :
  JS.is_space a = false ->
  (nat_of_ascii a < 128)%nat ->
  JS.trim_start (String a rest) = String a rest.
Proof.
  intros Hspace Hascii. cbn [JS.trim_start]. rewrite Hspace.
  destruct rest as [ | b [ | c rest3]]; try reflexivity;
    unfold JS.is_space2, JS.is_space3; cbv zeta;
    repeat match goal with
      | |- context [(nat_of_ascii a =? ?k)%nat] =>
          replace (nat_of_ascii a =? k)%nat with false
            by (symmetry; apply Nat.eqb_neq; lia)
      end;
    reflexivity.
Qed.

Lemma numeral_prefix (d : Decimal.uint) :
  d <> Decimal.Nil ->
  let text := NilEmpty.string_of_uint d in
  JS.trim_start text = text /\
  JS.trim_start (String "-" text) = String "-" text /\
  JS.strip_sign text = (1, text) /\
  JS.strip_radix text = (10, text).
Proof.
  intros H. split; [ | split ].
  - destruct d; [ congruence | .. ]; simpl NilEmpty.string_of_uint;
      (apply trim_start_ascii; [ reflexivity | vm_compute; lia ]).
  - apply trim_start_ascii; [ reflexivity | vm_compute; lia ].
  - destruct d as [ | d | d | d | d | d | d | d | d | d | d ];
      [ congruence | .. ]; split; destruct d; reflexivity.
Qed.

Lemma parseInt_numeral (d : Decimal.uint) :
  d <> Decimal.Nil ->
  JS.parseInt (NilEmpty.string_of_uint d) = JS.Int (Z.of_N (Pos.of_uint d)) /\
  JS.parseInt (String "-" (NilEmpty.string_of_uint d)) =
    JS.Int (- Z.of_N (Pos.of_uint d)).
Proof.
  intros H.
  destruct (numeral_prefix d H) as (Htrim & Hminus & Hsign & Hradix).
  unfold JS.parseInt. split.
  - rewrite Htrim, Hsign, Hradix, read_digits_numeral by assumption.
    f_equal; lia.
  - rewrite Hminus.
    change (JS.strip_sign (String "-" (NilEmpty.string_of_uint d)))
      with (-1, NilEmpty.string_of_uint d).
    cbv beta iota. rewrite Hradix, read_digits_numeral by assumption.
    f_equal; lia.
Qed.

Lemma parseInt_decimal (z : Z) : JS.parseInt (JS.decimal z) = JS.Int z.
Proof.
  destruct z as [ | p | p ]; [ reflexivity | | ];
    unfold JS.decimal; simpl;
    pose proof (Unsigned.to_uint_nonnil p) as Hnil;
    destruct (parseInt_numeral (Pos.to_uint p) Hnil) as [Hpos Hneg];
    rewrite DecimalPos.Unsigned.of_to in Hpos, Hneg.
  - unfold NilZero.string_of_uint.
    destruct (Pos.to_uint p) eqn:E; try congruence; exact Hpos.
  - unfold NilZero.string_of_uint.
    destruct (Pos.to_uint p) eqn:E; try congruence; exact Hneg.
Qed.

(** C5 as stated fails on a negative parameter: [page=-5] and [limit=-3]
    parse to negative integers, which are truthy, and are kept: the page is
    -5, not the default 1, and the limit -3, not the default 10. *)
Lemma negative_page_and_limit_counterexample :
  let query : gmap string QueryValue :=
    {[ "page" := QString "-5"; "limit" := QString "-3" ]} in
  JS.parseInt (to_string (query_get query "page")) = JS.Int (-5) /\
  page_of query = -5 /\
  page_of query <> 1 /\
  JS.parseInt (to_string (query_get query "limit")) = JS.Int (-3) /\
  limit_of query = -3 /\
  limit_of query <> 10.
Proof. vm_compute. repeat split; discriminate. Defined.

(** C5, as the handler has it.  [page] and [limit] are [parseInt] of the
    query parameter, with the defaults 1 and 10 taken when the parse result
    is falsy: when the parameter is absent, when its text is not numeric
    (the parse fails with [NaN]), and when it parses to 0.  Every other
    parse result that is a safe integer, a negative one too, is kept as it
    is; so the decimal numeral of any safe integer [z] other than 0 gives
    [z]. *)
Theorem page_and_limit_fall_back_when_falsy (query : gmap string QueryValue) :
  let page_text := to_string (query_get query "page") in
  let limit_text := to_string (query_get query "limit") in
  let non_numeric (text : string) :=
    forall c rest d,
      snd (JS.strip_sign (JS.trim_start text)) = String c rest ->
      JS.digit_value c = Some d -> 10 <= d in
  (* page *)
  (query !! "page" = None -> page_of query = 1) /\
  (non_numeric page_text -> page_of query = 1) /\
  (JS.parseInt page_text = JS.NaN \/ JS.parseInt page_text = JS.Int 0 ->
   page_of query = 1) /\
  (forall z, z <> 0 -> JS.safe z ->
     JS.parseInt page_text = JS.Int z -> page_of query = z) /\
  (forall z, JS.safe z ->
     query !! "page" = Some (QString (JS.decimal z)) ->
     page_of query = if z =? 0 then 1 else z) /\
  (* limit *)
  (query !! "limit" = None -> limit_of query = 10) /\
  (non_numeric limit_text -> limit_of query = 10) /\
  (JS.parseInt limit_text = JS.NaN \/ JS.parseInt limit_text = JS.Int 0 ->
   limit_of query = 10) /\
  (forall z, z <> 0 -> JS.safe z ->
     JS.parseInt limit_text = JS.Int z -> limit_of query = z) /\
  (forall z, JS.safe z ->
     query !! "limit" = Some (QString (JS.decimal z)) ->
     limit_of query = if z =? 0 then 10 else z).
Proof.
  intros page_text limit_text non_numeric.
  unfold page_of, limit_of. fold page_text limit_text.
  assert (Hfalsy : forall text d,
            JS.parseInt text = JS.NaN \/ JS.parseInt text = JS.Int 0 ->
            JS.number_or (JS.parseInt text) d = d)
    by (intros text d [-> | ->]; reflexivity).
  assert (Hkept : forall text d z,
            z <> 0 -> JS.parseInt text = JS.Int z ->
            JS.number_or (JS.parseInt text) d = z).
  { intros text d z Hz ->. simpl. destruct (Z.eqb_spec z 0); congruence. }
  assert (Habsent : forall k, query !! k = None ->
            to_string (query_get query k) = "undefined")
    by (intros k Hk; unfold query_get; rewrite Hk; reflexivity).
  assert (Hdecimal : forall k z, query !! k = Some (QString (JS.decimal z)) ->
            JS.parseInt (to_string (query_get query k)) = JS.Int z).
  { intros k z Hk. unfold query_get. rewrite Hk. apply parseInt_decimal. }
  repeat split.
  - intros H. subst page_text. rewrite (Habsent _ H). reflexivity.
  - intros H. rewrite (parseInt_non_numeric _ H). reflexivity.
  - apply Hfalsy.
  - intros z Hz _. apply Hkept. exact Hz.
  - intros z _ H. subst page_text. rewrite (Hdecimal _ _ H). reflexivity.
  - intros H. subst limit_text. rewrite (Habsent _ H). reflexivity.
  - intros H. rewrite (parseInt_non_numeric _ H). reflexivity.
  - apply Hfalsy.
  - intros z Hz _. apply Hkept. exact Hz.
  - intros z _ H. subst limit_text. rewrite (Hdecimal _ _ H). reflexivity.
Qed.

Lemma page_and_limit_fall_back_when_falsy_witness :
  let query : gmap string QueryValue :=
    {[ "page" := QString "-4"; "limit" := QString "ten" ]} in
  page_of query = -4 /\ limit_of query = 10.
Proof.
  intros query.
  destruct (page_and_limit_fall_back_when_falsy query)
    as (_ & _ & _ & _ & Hpage & _ & Hlimit & _).
  split.
  - apply (Hpage (-4)); [ vm_compute; split; reflexivity | reflexivity ].
  - apply Hlimit. intros c rest d Hc Hd.
    vm_compute in Hc. inversion Hc; subst c rest.
    vm_compute in Hd. discriminate Hd.
Defined.

(** * Further properties of the handlers *)

(** ** What a handler can answer *)

(** X1.  Whatever the persistence client, the state and the request, each
    handler ends with a response, and its status is one of a fixed few:
    create answers 201, 400 or 500; list 200 or 500; get-by-id, update and
    delete 200, 404 or 500.  So no handler other than create ever answers
    400, and the list never answers 404. *)
Theorem handlers_answer_with_few_statuses
    {S : Type} (prisma : Prisma.Client S) (s : S)
    (body : gmap string JS.Value) (query : gmap string QueryValue)
    (id : string) :
  (exists r t, router_post prisma body s = (Returned r, t) /\
               (statusCode r = 201 \/ statusCode r = 400 \/
                statusCode r = 500)) /\
  (exists r t, router_get prisma query s = (Returned r, t) /\
               (statusCode r = 200 \/ statusCode r = 500)) /\
  (exists r t, router_get_id prisma id s = (Returned r, t) /\
               (statusCode r = 200 \/ statusCode r = 404 \/
                statusCode r = 500)) /\
  (exists r t, router_put_id prisma id body s = (Returned r, t) /\
               (statusCode r = 200 \/ statusCode r = 404 \/
                statusCode r = 500)) /\
  (exists r t, router_delete_id prisma id s = (Returned r, t) /\
               (statusCode r = 200 \/ statusCode r = 404 \/
                statusCode r = 500)).
Proof.
  repeat split; unfold_handler.
  - destruct (negb _ || negb _); [ eauto 7 | ].
    destruct (Prisma.create prisma _ s) as [[p | e] s']; eauto 7.
  - destruct (Prisma.count prisma s) as [[n | e] s1]; [ | eauto 7 ].
    destruct (Prisma.findMany prisma _ _ _ s1) as [[ps | e] s2]; eauto 7.
  - destruct (Prisma.findUnique prisma id s) as [[[p | ] | e] s1]; eauto 7.
  - destruct (Prisma.findUnique prisma id s) as [[[p | ] | e] s1]; eauto 7.
    destruct (Prisma.update prisma id _ s1) as [[p' | e] s2]; eauto 7.
  - destruct (Prisma.findUnique prisma id s) as [[[p | ] | e] s1]; eauto 7.
    destruct (Prisma.delete prisma id s1) as [[p' | e] s2]; eauto 7.
Qed.

(** X2.  The status of a create response tells what happened, whatever the
    persistence client: it is 400 exactly when [name] or [location] is
    falsy, and then the client was not called; 201 exactly when both are
    truthy and the write returned a record; 500 exactly when both are
    truthy and the write threw. *)
Theorem post_status_tells_what_happened
    {S : Type} (prisma : Prisma.Client S)
    (body : gmap string JS.Value) (s : S) :
  let valid :=
    JS.truthy (JS.get body "name") && JS.truthy (JS.get body "location") in
  exists r t,
    router_post prisma body s = (Returned r, t) /\
    (statusCode r = 400 <-> valid = false) /\
    (valid = false -> t = s) /\
    (statusCode r = 201 <->
     valid = true /\
     exists property,
       Prisma.create prisma (create_data body) s = (Returned property, t)) /\
    (statusCode r = 500 <->
     valid = true /\
     exists e, Prisma.create prisma (create_data body) s = (Thrown e, t)).
Proof.
  intros valid. subst valid. unfold_handler.
  destruct (JS.truthy (JS.get body "name"));
    destruct (JS.truthy (JS.get body "location")); simpl;
    try (eexists _, _; split; [ reflexivity | ]; simpl;
         repeat split; try discriminate; try reflexivity;
         intros [H _]; discriminate H).
  destruct (Prisma.create prisma (create_data body) s) as [[p | e] s'];
    eexists _, _; (split; [ reflexivity | ]); simpl;
    repeat split; try discriminate; eauto;
    intros [_ [x Hx]]; inversion Hx.
Qed.

Lemma get_insert_ne (o : gmap string JS.Value) (k k' : string) (v : JS.Value) :
  k <> k' -> JS.get (<[k := v]> o) k' = JS.get o k'.
Proof. intros H. unfold JS.get. rewrite lookup_insert_ne; auto. Qed.

(** X3.  The handlers read seven fields of the body and nothing else: a
    field of any other name ([id], [createdAt], [role], ...) changes
    neither what create writes and answers nor what update writes and
    answers, whatever the persistence client. *)
Theorem other_body_fields_are_ignored
    {S : Type} (prisma : Prisma.Client S)
    (body : gmap string JS.Value) (k : string) (v : JS.Value) :
  k ∉ ["name"; "location"; "brochure"; "image"; "model3d";
       "availableApartments"; "status"] ->
  create_data (<[k := v]> body) = create_data body /\
  (forall existing,
     update_data (<[k := v]> body) existing = update_data body existing) /\
  (forall s,
     router_post prisma (<[k := v]> body) s = router_post prisma body s) /\
  (forall id s,
     router_put_id prisma id (<[k := v]> body) s =
     router_put_id prisma id body s).
Proof.
  intros Hk.
  assert (Hget : forall k',
            k' ∈ ["name"; "location"; "brochure"; "image"; "model3d";
                  "availableApartments"; "status"] ->
            JS.get (<[k := v]> body) k' = JS.get body k').
  { intros k' Hk'. apply get_insert_ne. intros ->. contradiction. }
  assert (Hcreate : create_data (<[k := v]> body) = create_data body).
  { unfold create_data. rewrite !Hget by (apply list_elem_of_In; simpl; tauto).
    reflexivity. }
  assert (Hupdate : forall existing,
            update_data (<[k := v]> body) existing =
            update_data body existing).
  { intros existing. unfold update_data.
    rewrite !Hget by (apply list_elem_of_In; simpl; tauto). reflexivity. }
  split; [ exact Hcreate | ]. split; [ exact Hupdate | ]. split.
  - intros s. unfold router_post. rewrite Hcreate.
    rewrite !Hget by (apply list_elem_of_In; simpl; tauto). reflexivity.
  - intros id s. unfold_handler.
    destruct (Prisma.findUnique prisma id s) as [[[p | ] | e] s1];
      try reflexivity.
    rewrite Hupdate. reflexivity.
Qed.

Lemma other_body_fields_are_ignored_witness :
  let body : gmap string JS.Value :=
    {[ "name" := JS.Str "X"; "location" := JS.Str "Y" ]} in
  let forged := <["id" := JS.Str "0"]> body in
  let s := run healthy [Post body] (MemDb.empty 0) in
  router_post (prisma healthy) forged s = router_post (prisma healthy) body s /\
  router_put_id (prisma healthy) "0" forged s =
    router_put_id (prisma healthy) "0" body s.
Proof.
  intros body forged s.
  destruct (other_body_fields_are_ignored (prisma healthy) body "id"
              (JS.Str "0"))
    as (_ & _ & Hpost & Hput).
  - intros H. apply list_elem_of_In in H. simpl in H.
    repeat destruct H as [H | H]; try discriminate H; exact H.
  - split; [ apply Hpost | apply Hput ].
Defined.

Lemma post_status_tells_what_happened_witness :
  let body : gmap string JS.Value :=
    {[ "name" := JS.Str "X"; "location" := JS.Str "" ]} in
  let s := MemDb.empty 0 in
  exists r,
    router_post (prisma (unreachable "down")) body s = (Returned r, s) /\
    statusCode r = 400.
Proof.
  intros body s.
  destruct (post_status_tells_what_happened (prisma (unreachable "down"))
              body s)
    as (r & t & Hres & H400 & Hsame & _).
  exists r. rewrite Hres. rewrite (Hsame eq_refl).
  split; [ reflexivity | apply H400; reflexivity ].
Defined.

(** ** Update: repeating and empty updates *)

Lemma or_idempotent (a b : JS.Value) : JS.or a (JS.or a b) = JS.or a b.
Proof. unfold JS.or. destruct (JS.truthy a); reflexivity. Qed.

Lemma if_defined_idempotent (a b : JS.Value) :
  JS.if_defined a (JS.if_defined a b) = JS.if_defined a b.
Proof. destruct a; reflexivity. Qed.

Lemma update_data_twice (body : gmap string JS.Value) (existing : Property)
    (id' : string) (c u : Z) :
  update_data body
    {| id := id'; fields := update_data body existing;
       createdAt := c; updatedAt := u |} =
  update_data body existing.
Proof.
  unfold update_data. simpl.
  rewrite !or_idempotent, !if_defined_idempotent. reflexivity.
Qed.

Lemma router_put_id_200 (fault : Db -> Query -> option Error) (id : string)
    (body : gmap string JS.Value) (s s' : Db) (r : Response) :
  router_put_id (prisma fault) id body s = (Returned r, s') ->
  statusCode r = 200 ->
  exists existing,
    rows s !! id = Some existing /\
    let property :=
      {| id := id; fields := update_data body existing;
         createdAt := createdAt existing; updatedAt := now s |} in
    r = res_json (MessageProperty "Property updated successfully" property) /\
    s' = {| rows := <[id := property]> (rows s); now := now s |}.
Proof.
  unfold_handler. simpl. unfold findUnique, update, call.
  destruct (fault s (QFindUnique id)).
  { intros H Hc. inversion H; subst. discriminate Hc. }
  destruct (rows s !! id) as [existing | ] eqn:Hid.
  2:{ intros H Hc. inversion H; subst. discriminate Hc. }
  destruct (fault s (QUpdate id _)).
  { intros H Hc. inversion H; subst. discriminate Hc. }
  rewrite Hid. intros H _. inversion H; subst. eexists. eauto.
Qed.

(** X4.  Update is idempotent in the fields it writes: merging the same body
    into the record that the merge produced gives the same [data] again.
    So on the in-memory store a second identical update that answers 200
    returns a record with the same [id], fields and [createdAt] as the
    first did. *)
Theorem put_twice_writes_the_same_fields
    (body : gmap string JS.Value) :
  (forall existing id' c u,
     update_data body
       {| id := id'; fields := update_data body existing;
          createdAt := c; updatedAt := u |} =
     update_data body existing) /\
  (forall (fault : Db -> Query -> option Error) (id : string)
          (s s1 s2 : Db) (r1 r2 : Response),
     router_put_id (prisma fault) id body s = (Returned r1, s1) ->
     statusCode r1 = 200 ->
     router_put_id (prisma fault) id body s1 = (Returned r2, s2) ->
     statusCode r2 = 200 ->
     exists p1 p2,
       json r1 = MessageProperty "Property updated successfully" p1 /\
       json r2 = MessageProperty "Property updated successfully" p2 /\
       Model.id p2 = Model.id p1 /\
       fields p2 = fields p1 /\
       createdAt p2 = createdAt p1 /\
       rows s2 !! id = Some p2).
Proof.
  split; [ intros; apply update_data_twice | ].
  intros fault id s s1 s2 r1 r2 H1 Hc1 H2 Hc2.
  destruct (router_put_id_200 fault id body s s1 r1 H1 Hc1)
    as (e1 & He1 & Hr1 & Hs1).
  destruct (router_put_id_200 fault id body s1 s2 r2 H2 Hc2)
    as (e2 & He2 & Hr2 & Hs2).
  subst r1 r2. eexists _, _.
  split; [ reflexivity | ]. split; [ reflexivity | ].
  rewrite Hs1 in He2. simpl in He2. rewrite lookup_insert_eq in He2.
  inversion He2; subst e2. simpl.
  split; [ reflexivity | ].
  split; [ apply update_data_twice | ].
  split; [ reflexivity | ].
  rewrite Hs2. simpl. apply lookup_insert_eq.
Qed.

Lemma put_twice_writes_the_same_fields_witness :
  let created : gmap string JS.Value :=
    {[ "name" := JS.Str "X"; "location" := JS.Str "Y" ]} in
  let body : gmap string JS.Value :=
    {[ "status" := JS.Str "sold"; "brochure" := JS.Null ]} in
  let s := run healthy [Post created; Tick 3] (MemDb.empty 0) in
  let first := router_put_id (prisma healthy) "0" body s in
  let second := router_put_id (prisma healthy) "0" body (snd first) in
  exists p1 p2,
    fst first =
      Returned
        (res_json (MessageProperty "Property updated successfully" p1)) /\
    fst second =
      Returned
        (res_json (MessageProperty "Property updated successfully" p2)) /\
    fields p2 = fields p1 /\
    status (fields p2) = JS.Str "sold".
Proof.
  intros created body s first second.
  destruct (put_twice_writes_the_same_fields body) as [_ Hmem].
  destruct (Hmem healthy "0" s (snd first) (snd second)
              (res_json
                 (MessageProperty "Property updated successfully"
                    {| id := "0"; fields := update_data body
                         {| id := "0"; fields := create_data created;
                            createdAt := 0; updatedAt := 0 |};
                       createdAt := 0; updatedAt := 3 |}))
              (res_json
                 (MessageProperty "Property updated successfully"
                    {| id := "0"; fields := update_data body
                         {| id := "0"; fields := create_data created;
                            createdAt := 0; updatedAt := 0 |};
                       createdAt := 0; updatedAt := 3 |})))
    as (p1 & p2 & H1 & H2 & _ & Hfields & _); try reflexivity.
  simpl in H1, H2. inversion H1; inversion H2; subst p1 p2.
  eexists _, _. split; [ reflexivity | ]. split; [ reflexivity | ].
  split; reflexivity.
Defined.

(** X5.  An update that supplies nothing is not an error: when the body has
    none of [brochure], [image], [model3d], [availableApartments] and its
    [name], [location] and [status] are absent or falsy (the empty body, for
    one), the [data] written is the fields of the existing record, and
    whatever the persistence client the handler answers 200 with what the
    write of just those fields returns. *)
Theorem put_of_nothing_rewrites_the_record
    (body : gmap string JS.Value) (existing : Property) :
  JS.truthy (JS.get body "name") = false ->
  JS.truthy (JS.get body "location") = false ->
  JS.truthy (JS.get body "status") = false ->
  body !! "brochure" = None ->
  body !! "image" = None ->
  body !! "model3d" = None ->
  body !! "availableApartments" = None ->
  update_data body existing = fields existing /\
  (forall (S : Type) (prisma : Prisma.Client S) (id : string) (s s1 s2 : S)
          (property : Property),
     Prisma.findUnique prisma id s = (Returned (Some existing), s1) ->
     Prisma.update prisma id (fields existing) s1 = (Returned property, s2) ->
     router_put_id prisma id body s =
       (Returned
          (res_json
             (MessageProperty "Property updated successfully" property)),
        s2)).
Proof.
  intros Hn Hl Hs Hb Hi Hm Ha.
  assert (Hdata : update_data body existing = fields existing).
  { unfold update_data.
    rewrite (or_falsy _ _ Hn), (or_falsy _ _ Hl), (or_falsy _ _ Hs).
    rewrite (get_absent _ _ Hb), (get_absent _ _ Hi), (get_absent _ _ Hm),
      (get_absent _ _ Ha).
    destruct existing as [i [n l b im m a st] c u]. reflexivity. }
  split; [ exact Hdata | ].
  intros S prisma id s s1 s2 property Hfind Hupd.
  eapply router_put_id_updated; [ exact Hfind | ].
  rewrite Hdata. exact Hupd.
Qed.

Lemma put_of_nothing_rewrites_the_record_witness :
  let created : gmap string JS.Value :=
    {[ "name" := JS.Str "X"; "location" := JS.Str "Y" ]} in
  let s := run healthy [Post created; Tick 3] (MemDb.empty 0) in
  exists property s',
    router_put_id (prisma healthy) "0" ∅ s =
      (Returned
         (res_json (MessageProperty "Property updated successfully" property)),
       s') /\
    fields property = create_data created /\
    updatedAt property = 3.
Proof.
  intros created s.
  destruct (put_of_nothing_rewrites_the_record ∅
              {| id := "0"; fields := create_data created;
                 createdAt := 0; updatedAt := 0 |})
    as [_ Hput]; try reflexivity.
  exists {| id := "0"; fields := create_data created;
            createdAt := 0; updatedAt := 3 |},
    (snd (router_put_id (prisma healthy) "0" ∅ s)).
  split; [ | split; reflexivity ].
  apply (Hput Db (prisma healthy) "0" s s); reflexivity.
Defined.

(** ** Reads and deletes *)

(** X6.  The two read handlers call only [count], [findMany] and
    [findUnique]: over any persistence client whose three read calls leave
    its state alone, list and get-by-id leave its state alone, whatever
    they answer.  The in-memory client is such a client for every failure
    pattern, so no list or get-by-id request ever changes the store. *)
Theorem reads_change_nothing :
  (forall (S : Type) (prisma : Prisma.Client S),
     (forall s, snd (Prisma.count prisma s) = s) ->
     (forall o skip take s, snd (Prisma.findMany prisma o skip take s) = s) ->
     (forall id s, snd (Prisma.findUnique prisma id s) = s) ->
     forall s,
       (forall query, snd (router_get prisma query s) = s) /\
       (forall id, snd (router_get_id prisma id s) = s)) /\
  (forall (fault : Db -> Query -> option Error) (s : Db),
     (forall query, snd (router_get (prisma fault) query s) = s) /\
     (forall id, snd (router_get_id (prisma fault) id s) = s)).
Proof.
  assert (Hgen : forall (S : Type) (prisma : Prisma.Client S),
     (forall s, snd (Prisma.count prisma s) = s) ->
     (forall o skip take s, snd (Prisma.findMany prisma o skip take s) = s) ->
     (forall id s, snd (Prisma.findUnique prisma id s) = s) ->
     forall s,
       (forall query, snd (router_get prisma query s) = s) /\
       (forall id, snd (router_get_id prisma id s) = s)).
  { intros S prisma Hcount Hmany Hfind s. split.
    - intros query. unfold_handler.
      pose proof (Hcount s) as H1.
      destruct (Prisma.count prisma s) as [[n | e] s1]; simpl in H1; subst s1;
        [ | reflexivity ].
      match goal with
      | |- context [Prisma.findMany prisma ?o ?a ?b s] =>
          pose proof (Hmany o a b s) as H2;
          destruct (Prisma.findMany prisma o a b s) as [[ps | e] s2]
      end; simpl in H2; subst s2; reflexivity.
    - intros id. unfold_handler.
      pose proof (Hfind id s) as H1.
      destruct (Prisma.findUnique prisma id s) as [[[p | ] | e] s1];
        simpl in H1; subst s1; reflexivity. }
  split; [ exact Hgen | ].
  intros fault s. apply Hgen.
  - intros s0. simpl. unfold count, call. destruct (fault s0 _); reflexivity.
  - intros o a b s0. simpl. unfold findMany, call.
    destruct (fault s0 _); reflexivity.
  - intros id s0. simpl. unfold findUnique, call.
    destruct (fault s0 _); reflexivity.
Qed.

Lemma reads_change_nothing_witness :
  let body : gmap string JS.Value :=
    {[ "name" := JS.Str "X"; "location" := JS.Str "Y" ]} in
  let s := run healthy [Post body] (MemDb.empty 0) in
  snd (router_get (prisma healthy) {[ "page" := QString "-2" ]} s) = s /\
  snd (router_get_id (prisma healthy) "0" s) = s.
Proof.
  intros body s.
  destruct reads_change_nothing as [Hgen _].
  destruct (Hgen Db (prisma healthy)) with (s := s) as [Hlist Hone];
    [ reflexivity .. | ].
  split; [ apply Hlist | apply Hone ].
Defined.

Lemma router_delete_id_deleted {S : Type} (prisma : Prisma.Client S)
    (id : string) (s s1 s2 : S) (existingProperty deleted : Property) :
  Prisma.findUnique prisma id s = (Returned (Some existingProperty), s1) ->
  Prisma.delete prisma id s1 = (Returned deleted, s2) ->
  router_delete_id prisma id s =
    (Returned (res_json (Message "Property deleted successfully")), s2).
Proof. intros H H0. unfold_handler. rewrite H, H0. reflexivity. Qed.

(** X7.  Delete of an existing record: whatever the persistence client,
    when the look-up finds the record and the delete call returns, the
    handler answers 200 with "Property deleted successfully" and nothing
    else.  On the in-memory store the record is then gone and every other
    record is as it was, so a following get-by-id, update or delete of the
    same id (the look-up not failing) answers 404. *)
Theorem delete_removes_the_record (id : string) :
  (forall (S : Type) (prisma : Prisma.Client S) (s s1 s2 : S)
          (existingProperty deleted : Property),
     Prisma.findUnique prisma id s = (Returned (Some existingProperty), s1) ->
     Prisma.delete prisma id s1 = (Returned deleted, s2) ->
     router_delete_id prisma id s =
       (Returned (res_json (Message "Property deleted successfully")), s2)) /\
  (forall (fault : Db -> Query -> option Error) (s : Db) (existing : Property),
     rows s !! id = Some existing ->
     fault s (QFindUnique id) = None ->
     fault s (QDelete id) = None ->
     exists s',
       router_delete_id (prisma fault) id s =
         (Returned (res_json (Message "Property deleted successfully")), s') /\
       rows s' !! id = None /\
       (forall id', id' <> id -> rows s' !! id' = rows s !! id') /\
       S (size (rows s')) = size (rows s) /\
       (fault s' (QFindUnique id) = None ->
        let not_found :=
          Returned (res_status_json 404 (Message "Property not found")) in
        router_get_id (prisma fault) id s' = (not_found, s') /\
        (forall body,
           router_put_id (prisma fault) id body s' = (not_found, s')) /\
        router_delete_id (prisma fault) id s' = (not_found, s'))).
Proof.
  split.
  - intros S prisma s s1 s2 existingProperty deleted.
    apply router_delete_id_deleted.
  - intros fault s existing Hid Hfind Hdel.
    eexists. split.
    { eapply router_delete_id_deleted.
      - rewrite findUnique_ok by assumption. rewrite Hid. reflexivity.
      - simpl. unfold delete. rewrite call_ok by assumption.
        rewrite Hid. reflexivity. }
    simpl.
    split; [ apply lookup_delete_eq | ].
    split; [ intros id' Hne; apply lookup_delete_ne; congruence | ].
    split.
    { rewrite <- (insert_delete_id (rows s) id existing Hid) at 2.
      rewrite map_size_insert_None by apply lookup_delete_eq. reflexivity. }
    intros Hfind'. apply router_not_found.
    rewrite findUnique_ok by assumption. simpl.
    rewrite lookup_delete_eq. reflexivity.
Qed.

Lemma delete_removes_the_record_witness :
  let body : gmap string JS.Value :=
    {[ "name" := JS.Str "X"; "location" := JS.Str "Y" ]} in
  let s := run healthy [Post body; Post body] (MemDb.empty 0) in
  exists s',
    router_delete_id (prisma healthy) "0" s =
      (Returned (res_json (Message "Property deleted successfully")), s') /\
    size (rows s') = 1%nat /\
    router_get_id (prisma healthy) "0" s' =
      (Returned (res_status_json 404 (Message "Property not found")), s').
Proof.
  intros body s.
  destruct (delete_removes_the_record "0") as [_ Hmem].
  destruct (Hmem healthy s
              {| id := "0"; fields := create_data body;
                 createdAt := 0; updatedAt := 0 |})
    as (s' & Hres & _ & _ & Hsize & Hgone); try reflexivity.
  exists s'. split; [ exact Hres | ].
  split.
  - change (size (rows s)) with 2%nat in Hsize. congruence.
  - apply Hgone. reflexivity.
Defined.

(** ** What every stored record satisfies *)

(** What one event can do to the records of the in-memory store: nothing,
    add the [data] of a valid create, replace a record by the [data] of an
    update of it, or remove a record. *)
Lemma serve_rows (fault : Db -> Query -> option Error) (ev : Event) (s : Db) :
  let s' := snd (serve fault ev s) in
  rows s' = rows s \/
  (exists body k r,
     JS.truthy (JS.get body "name") = true /\
     JS.truthy (JS.get body "location") = true /\
     fields r = create_data body /\
     rows s' = <[k := r]> (rows s)) \/
  (exists body k existing r,
     rows s !! k = Some existing /\
     fields r = update_data body existing /\
     rows s' = <[k := r]> (rows s)) \/
  (exists k, rows s' = base.delete k (rows s)).
Proof.
  destruct ev as [body | query | id | id body | id | dt]; simpl.
  - unfold_handler.
    destruct (JS.truthy (JS.get body "name")) eqn:Hn; [ | left; reflexivity ].
    destruct (JS.truthy (JS.get body "location")) eqn:Hl;
      [ | left; reflexivity ].
    simpl. unfold create, call.
    destruct (fault s _); [ left; reflexivity | ].
    right; left. eexists body, _, _.
    split; [ exact Hn | ]. split; [ exact Hl | ].
    split; [ | reflexivity ]. reflexivity.
  - left. unfold_handler. simpl. unfold count, findMany, call.
    destruct (fault s QCount); [ reflexivity | ].
    destruct (fault s _); reflexivity.
  - left. unfold_handler. simpl. unfold findUnique, call.
    destruct (fault s _); [ reflexivity | ].
    destruct (rows s !! id); reflexivity.
  - unfold_handler. simpl. unfold findUnique, update, call.
    destruct (fault s (QFindUnique id)); [ left; reflexivity | ].
    destruct (rows s !! id) as [existing | ] eqn:Hid; [ | left; reflexivity ].
    destruct (fault s (QUpdate id _)); [ left; reflexivity | ].
    rewrite Hid. right; right; left.
    eexists body, id, existing, _.
    split; [ exact Hid | ]. split; [ | reflexivity ]. reflexivity.
  - unfold_handler. simpl. unfold findUnique, delete, call.
    destruct (fault s (QFindUnique id)); [ left; reflexivity | ].
    destruct (rows s !! id) as [existing | ] eqn:Hid; [ | left; reflexivity ].
    destruct (fault s (QDelete id)); [ left; reflexivity | ].
    rewrite Hid. right; right; right. exists id. reflexivity.
  - left. reflexivity.
Qed.

(** An invariant of the fields of the stored records: a property that the
    [data] of every valid create has, and that the [data] of an update has
    whenever the existing record has it, holds of every record of every
    store reached from the empty one. *)
Lemma stored_fields_invariant (P : PropertyData -> Prop) :
  (forall body,
     JS.truthy (JS.get body "name") = true ->
     JS.truthy (JS.get body "location") = true ->
     P (create_data body)) ->
  (forall body existing,
     P (fields existing) -> P (update_data body existing)) ->
  forall fault evs s,
    (forall id r, rows s !! id = Some r -> P (fields r)) ->
    forall id r, rows (run fault evs s) !! id = Some r -> P (fields r).
Proof.
  intros Hcreate Hupdate fault evs.
  induction evs as [ | ev evs IH]; intros s Hinv; [ exact Hinv | ].
  simpl. apply IH. intros id r.
  destruct (serve_rows fault ev s)
    as [-> | [(body & k & r' & Hn & Hl & Hf & ->)
             | [(body & k & ex & r' & Hex & Hf & ->) | (k & ->)]]].
  - apply Hinv.
  - destruct (decide (k = id)) as [-> | Hne].
    + rewrite lookup_insert_eq. intros [= <-]. rewrite Hf. auto.
    + rewrite lookup_insert_ne by assumption. apply Hinv.
  - destruct (decide (k = id)) as [-> | Hne].
    + rewrite lookup_insert_eq. intros [= <-]. rewrite Hf.
      apply Hupdate. eapply Hinv. exact Hex.
    + rewrite lookup_insert_ne by assumption. apply Hinv.
  - intros H. apply lookup_delete_Some in H as [_ H]. eapply Hinv. exact H.
Qed.

(** X8.  [status] is never empty: the [data] of a create always has a
    truthy [status] (the supplied one, or "available"), and the [data] of
    an update has a truthy [status] whenever the existing record has.  So
    in every store reached from the empty one by any sequence of requests,
    whichever calls of the client fail, every record has a [status] that is
    not [""], [null] or missing; a record's [status] cannot be cleared. *)
Theorem status_is_never_empty :
  (forall body, JS.truthy (status (create_data body)) = true) /\
  (forall body existing,
     JS.truthy (status (fields existing)) = true ->
     JS.truthy (status (update_data body existing)) = true) /\
  (forall fault evs t0 id property,
     rows (run fault evs (MemDb.empty t0)) !! id = Some property ->
     let st := status (fields property) in
     JS.truthy st = true /\
     st <> JS.Str "" /\ st <> JS.Null /\ st <> JS.Undefined).
Proof.
  assert (Hcreate : forall body, JS.truthy (status (create_data body)) = true)
    by (intros body; apply truthy_or; reflexivity).
  assert (Hupdate : forall body existing,
            JS.truthy (status (fields existing)) = true ->
            JS.truthy (status (update_data body existing)) = true)
    by (intros body existing; apply truthy_or).
  split; [ exact Hcreate | ]. split; [ exact Hupdate | ].
  intros fault evs t0 id property Hrow.
  assert (H : JS.truthy (status (fields property)) = true).
  { apply (stored_fields_invariant
             (fun d => JS.truthy (status d) = true))
      with (fault := fault) (evs := evs) (s := MemDb.empty t0) (id := id);
      auto.
    intros id' r. simpl. rewrite lookup_empty. discriminate. }
  split; [ exact H | apply truthy_nonempty; exact H ].
Qed.

Lemma status_is_never_empty_witness :
  let created : gmap string JS.Value :=
    {[ "name" := JS.Str "X"; "location" := JS.Str "Y";
       "status" := JS.Num 0 ]} in
  let cleared : gmap string JS.Value := {[ "status" := JS.Str "" ]} in
  let evs := [Post created; Put "0" cleared] in
  exists property,
    rows (run healthy evs (MemDb.empty 0)) !! "0" = Some property /\
    status (fields property) = JS.Str "available" /\
    status (fields property) <> JS.Str "".
Proof.
  intros created cleared evs.
  destruct status_is_never_empty as (_ & _ & Hreach).
  eexists. split; [ reflexivity | ]. split; [ reflexivity | ].
  edestruct (Hreach healthy evs 0 "0") as (_ & Hne & _); [ reflexivity | ].
  exact Hne.
Defined.

Lemma or_defined (a b : JS.Value) :
  b <> JS.Undefined -> JS.or a b <> JS.Undefined.
Proof.
  intros Hb. unfold JS.or. destruct (JS.truthy a) eqn:Ha; [ | exact Hb ].
  apply truthy_nonempty. exact Ha.
Qed.

Lemma if_defined_defined (a b : JS.Value) :
  b <> JS.Undefined -> JS.if_defined a b <> JS.Undefined.
Proof. intros Hb. destruct a; simpl; congruence. Qed.

(** X9.  No field is ever stored as [undefined]: every one of the seven
    fields of the [data] of a valid create is defined (a missing optional
    field has become [null], 0 or "available"), and the [data] of an update
    is defined in every field whenever the existing record is.  So every
    record of every store reached from the empty one has all seven fields
    defined, and each appears in the JSON of a response. *)
Theorem no_field_is_stored_undefined :
  let defined (d : PropertyData) :=
    name d <> JS.Undefined /\ location d <> JS.Undefined /\
    brochure d <> JS.Undefined /\ image d <> JS.Undefined /\
    model3d d <> JS.Undefined /\ availableApartments d <> JS.Undefined /\
    status d <> JS.Undefined in
  (forall body,
     JS.truthy (JS.get body "name") = true ->
     JS.truthy (JS.get body "location") = true ->
     defined (create_data body)) /\
  (forall body existing,
     defined (fields existing) -> defined (update_data body existing)) /\
  (forall fault evs t0 id property,
     rows (run fault evs (MemDb.empty t0)) !! id = Some property ->
     defined (fields property)).
Proof.
  intros defined.
  assert (Hcreate : forall body,
            JS.truthy (JS.get body "name") = true ->
            JS.truthy (JS.get body "location") = true ->
            defined (create_data body)).
  { intros body Hn Hl. unfold defined, create_data. simpl.
    repeat split;
      solve [ apply truthy_nonempty; assumption
            | apply or_defined; discriminate ]. }
  assert (Hupdate : forall body existing,
            defined (fields existing) -> defined (update_data body existing)).
  { intros body existing (Hn & Hl & Hb & Hi & Hm & Ha & Hs).
    unfold defined, update_data. simpl.
    repeat split; auto using or_defined, if_defined_defined. }
  split; [ exact Hcreate | ]. split; [ exact Hupdate | ].
  intros fault evs t0 id property Hrow.
  apply (stored_fields_invariant defined Hcreate Hupdate fault evs
           (MemDb.empty t0)) with (id := id); [ | exact Hrow ].
  intros id' r. simpl. rewrite lookup_empty. discriminate.
Qed.

Lemma no_field_is_stored_undefined_witness :
  let created : gmap string JS.Value :=
    {[ "name" := JS.Str "X"; "location" := JS.Str "Y" ]} in
  let body : gmap string JS.Value := {[ "image" := JS.Null ]} in
  let evs := [Post created; Put "0" body] in
  exists property,
    rows (run healthy evs (MemDb.empty 0)) !! "0" = Some property /\
    brochure (fields property) <> JS.Undefined /\
    image (fields property) = JS.Null.
Proof.
  intros created body evs.
  destruct no_field_is_stored_undefined as (_ & _ & Hreach).
  eexists. split; [ reflexivity | ].
  edestruct (Hreach healthy evs 0 "0") as (_ & _ & Hb & _); [ reflexivity | ].
  split; [ exact Hb | reflexivity ].
Defined.

(** ** List: what the descriptor and the pages say *)

(** X10.  For a page [p >= 1] and a limit [l >= 1] over [n >= 0] records,
    with [p], [l], [(p-1)*l] and [n] safe integers, the descriptor that the
    list handler sends, whatever the persistence client, is consistent:
    [totalPages] is 0 exactly when there is no
    record and otherwise the least number of pages of [l] that hold [n]
    records; [hasNextPage] is true exactly when records remain after this
    page ([p * l < n]); [hasPrevPage] is true exactly from page 2 on. *)
Theorem pagination_descriptor_is_consistent
    {S : Type} (prisma : Prisma.Client S)
    (query : gmap string QueryValue) (s s1 s2 : S) (n : Z)
    (properties : list Property) :
  let p := page_of query in
  let l := limit_of query in
  Prisma.count prisma s = (Returned n, s1) ->
  Prisma.findMany prisma desc ((p - 1) * l) l s1 = (Returned properties, s2) ->
  JS.safe n ->
  JS.safe p ->
  JS.safe l ->
  JS.safe ((p - 1) * l) ->
  0 <= n ->
  1 <= p ->
  1 <= l ->
  exists pg,
    router_get prisma query s =
      (Returned (res_json (Page properties pg)), s2) /\
    0 <= totalPages pg /\
    (totalPages pg = 0 <-> n = 0) /\
    l * (totalPages pg - 1) < n <= l * totalPages pg /\
    (hasNextPage pg = true <-> p * l < n) /\
    (hasNextPage pg = true <-> p < totalPages pg) /\
    (hasPrevPage pg = true <-> 2 <= p).
Proof.
  intros p l Hcount Hmany _ _ _ _ Hn Hp Hl.
  exists (pagination_of p l n).
  split; [ apply (router_get_page prisma query s s1 s2); assumption | ].
  simpl. pose proof (ceil_div_pos n l ltac:(lia)) as Hceil.
  set (t := JS.ceil_div n l) in *.
  split; [ nia | ]. split; [ split; intros; nia | ].
  split; [ exact Hceil | ].
  split; [ rewrite Z.ltb_lt; split; intros; nia | ].
  split; [ apply Z.ltb_lt | ].
  rewrite Z.gtb_ltb, Z.ltb_lt. lia.
Qed.

Lemma pagination_descriptor_is_consistent_witness :
  let body : gmap string JS.Value :=
    {[ "name" := JS.Str "X"; "location" := JS.Str "Y" ]} in
  let s := run healthy (replicate 5 (Post body)) (MemDb.empty 0) in
  let query : gmap string QueryValue :=
    {[ "page" := QString "2"; "limit" := QString "2" ]} in
  exists properties pg,
    router_get (prisma healthy) query s =
      (Returned (res_json (Page properties pg)), s) /\
    totalPages pg = 3 /\ hasNextPage pg = true /\ hasPrevPage pg = true.
Proof.
  intros body s query.
  destruct (pagination_descriptor_is_consistent (prisma healthy) query
              s s s 5
              (take 2 (drop 2 (all_rows desc s))))
    as (pg & Hres & _ & _ & Hceil & Hnext & _ & Hprev);
    [ reflexivity | reflexivity
    | vm_compute; split; reflexivity | vm_compute; split; reflexivity
    | vm_compute; split; reflexivity | vm_compute; split; reflexivity
    | lia | vm_compute; discriminate | vm_compute; discriminate | ].
  exists (take 2 (drop 2 (all_rows desc s))), pg.
  change (limit_of query) with 2 in Hceil, Hnext.
  change (page_of query) with 2 in Hnext, Hprev.
  split; [ exact Hres | ]. split; [ lia | ].
  split; [ apply Hnext; lia | apply Hprev; lia ].
Defined.

Lemma router_get_200 (fault : Db -> Query -> option Error)
    (query : gmap string QueryValue) (s s' : Db)
    (properties : list Property) (pg : Pagination) :
  router_get (prisma fault) query s =
    (Returned (res_json (Page properties pg)), s') ->
  s' = s /\
  properties =
    take (Z.to_nat (limit_of query))
      (drop (Z.to_nat ((page_of query - 1) * limit_of query))
         (all_rows desc s)) /\
  pg = pagination_of (page_of query) (limit_of query)
         (Z.of_nat (size (rows s))).
Proof.
  unfold_handler. simpl. unfold count, findMany, call.
  destruct (fault s QCount); [ intros H; inversion H | ].
  destruct (fault s _); [ intros H; inversion H | ].
  intros H. inversion H. auto.
Qed.

Lemma length_all_rows (o : SortOrder) (s : Db) :
  length (all_rows o s) = size (rows s).
Proof.
  unfold all_rows.
  rewrite (Permutation_length (merge_sort_Permutation _ _)).
  rewrite length_fmap. apply length_map_to_list.
Qed.



Lemma chunks_cover {A : Type} (xs : list A) (L : nat) (pss : list (list A)) :
  (forall i ps, pss !! i = Some ps -> ps = take L (drop (i * L) xs)) ->
  concat pss = take (length pss * L) xs.
Proof.
  induction pss as [ | ps pss IH] using rev_ind; intros H.
  - reflexivity.
  - rewrite concat_app. simpl. rewrite app_nil_r.
    rewrite IH by (intros i q Hq; apply H; rewrite lookup_app_l;
                   [ exact Hq | eapply lookup_lt_Some; exact Hq ]).
    rewrite (H (length pss) ps)
      by (rewrite lookup_app_r, Nat.sub_diag by lia; reflexivity).
    rewrite take_take_drop, length_app. simpl.
    f_equal. lia.
Qed.

Lemma NoDup_fmap_eq {A B : Type} (f : A -> B) (l : list A) (x y : A) :
  NoDup (f <$> l) -> x ∈ l -> y ∈ l -> f x = f y -> x = y.
Proof.
  induction l as [ | a l IH]; intros Hnd Hx Hy Hf.
  - inversion Hx.
  - rewrite fmap_cons in Hnd. apply NoDup_cons in Hnd as [Hnotin Hnd].
    apply elem_of_cons in Hx as [-> | Hx];
      apply elem_of_cons in Hy as [-> | Hy]; auto.
    + exfalso. apply Hnotin. rewrite Hf. apply list_elem_of_fmap_2. exact Hy.
    + exfalso. apply Hnotin. rewrite <- Hf. apply list_elem_of_fmap_2.
      exact Hx.
Qed.

(** X12.  On the in-memory store, when no two stored records have the same
    [createdAt] (so that "by [createdAt] descending" is one order, the same
    at every request), paging through with a fixed safe limit [l >= 1]
    misses nothing and repeats nothing: when the requests for the pages 1,
    2, ..., [ceil(n/l)] have each been answered with a page (the store not
    changing in between), the pages put end to end are all the stored
    records, each once, by [createdAt] descending; they are that order,
    whichever way it is computed. *)
Theorem pages_partition_the_records
    (fault : Db -> Query -> option Error) (s : Db) (l : Z)
    (pages : list (list Property)) :
  1 <= l ->
  JS.safe l ->
  JS.safe (Z.of_nat (size (rows s))) ->
  NoDup (createdAt <$> (map_to_list (rows s)).*2) ->
  Z.of_nat (length pages) = JS.ceil_div (Z.of_nat (size (rows s))) l ->
  (forall i properties,
     pages !! i = Some properties ->
     exists query pg s',
       page_of query = Z.of_nat i + 1 /\
       limit_of query = l /\
       router_get (prisma fault) query s =
         (Returned (res_json (Page properties pg)), s')) ->
  concat pages = all_rows desc s /\
  concat pages ≡ₚ (map_to_list (rows s)).*2 /\
  StronglySorted (fun a b => createdAt b <= createdAt a) (concat pages) /\
  (forall order,
     order ≡ₚ (map_to_list (rows s)).*2 ->
     StronglySorted (fun a b => createdAt b <= createdAt a) order ->
     concat pages = order).
Proof.
  intros Hl _ _ Hdistinct Hlen Hpages.
  assert (Hall : concat pages = all_rows desc s).
  { rewrite (chunks_cover (all_rows desc s) (Z.to_nat l)).
    - apply take_ge. rewrite length_all_rows.
      pose proof (ceil_div_pos (Z.of_nat (size (rows s))) l ltac:(lia)).
      nia.
    - intros i ps Hi.
      destruct (Hpages i ps Hi) as (query & pg & s' & Hp & Hq & Hres).
      destruct (router_get_200 fault query s s' ps pg Hres) as (_ & -> & _).
      rewrite Hp, Hq.
      replace (Z.to_nat ((Z.of_nat i + 1 - 1) * l)) with (i * Z.to_nat l)%nat
        by nia.
      reflexivity. }
  assert (Hperm : all_rows desc s ≡ₚ (map_to_list (rows s)).*2)
    by apply merge_sort_Permutation.
  rewrite Hall. split; [ reflexivity | ].
  split; [ exact Hperm | ].
  split; [ apply (all_rows_sorted desc) | ].
  intros order Horder Hsorted.
  apply (StronglySorted_unique_strong
           (fun a b : Property => createdAt b <= createdAt a)).
  - intros x1 x2 Hx1 Hx2 H12 H21.
    apply (NoDup_fmap_eq createdAt ((map_to_list (rows s)).*2));
      [ exact Hdistinct | rewrite <- Hperm; exact Hx1
      | rewrite <- Horder; exact Hx2 | lia ].
  - apply (all_rows_sorted desc).
  - exact Hsorted.
  - rewrite Hperm, Horder. reflexivity.
Qed.

Lemma pages_partition_the_records_witness :
  let body : gmap string JS.Value :=
    {[ "name" := JS.Str "X"; "location" := JS.Str "Y" ]} in
  let s :=
    run healthy (List.concat (replicate 5%nat [Post body; Tick 1]))
      (MemDb.empty 0) in
  let page (k : string) : gmap string QueryValue :=
    {[ "page" := QString k; "limit" := QString "2" ]} in
  let sent (k : string) : list Property :=
    match fst (router_get (prisma healthy) (page k) s) with
    | Returned {| json := Page properties _ |} => properties
    | _ => []
    end in
  createdAt <$> (sent "1" ++ sent "2" ++ sent "3")%list = [4; 3; 2; 1; 0] /\
  (sent "1" ++ sent "2" ++ sent "3")%list = all_rows desc s.
Proof.
  intros body s page sent.
  split; [ reflexivity | ].
  destruct (pages_partition_the_records healthy s 2
              [sent "1"; sent "2"; sent "3"]) as (Hall & _);
    [ lia | vm_compute; split; reflexivity | vm_compute; split; reflexivity
    | apply (bool_decide_unpack _); vm_compute; exact I
    | reflexivity | | ].
  - intros i properties Hi.
    destruct i as [ | [ | [ | i]]]; simpl in Hi; inversion Hi; subst.
    + exists (page "1"). eexists _, _. repeat split; reflexivity.
    + exists (page "2"). eexists _, _. repeat split; reflexivity.
    + exists (page "3"). eexists _, _. repeat split; reflexivity.
  - simpl in Hall. rewrite app_nil_r in Hall. exact Hall.
Defined.

(** ** Get by id: the last written state *)

(** X15.  Get-by-id sends the record that the look-up returns, as it is,
    with status 200, whatever the persistence client.  On the in-memory
    store it therefore answers with the record stored under the id; and
    after an update that answered 200, a get-by-id of the same id (the
    look-up not failing) answers with exactly the record of the update
    response, whose [id] is the one requested, while the number of stored
    records is what it was. *)
Theorem get_by_id_sends_the_last_written_record (id : string) :
  (forall (S : Type) (prisma : Prisma.Client S) (s s1 : S)
          (property : Property),
     Prisma.findUnique prisma id s = (Returned (Some property), s1) ->
     router_get_id prisma id s =
       (Returned (res_json (OneProperty property)), s1)) /\
  (forall (fault : Db -> Query -> option Error) (s : Db) (property : Property),
     rows s !! id = Some property ->
     fault s (QFindUnique id) = None ->
     router_get_id (prisma fault) id s =
       (Returned (res_json (OneProperty property)), s)) /\
  (forall (fault : Db -> Query -> option Error) (s s' : Db)
          (body : gmap string JS.Value) (r : Response),
     router_put_id (prisma fault) id body s = (Returned r, s') ->
     statusCode r = 200 ->
     exists property,
       json r = MessageProperty "Property updated successfully" property /\
       Model.id property = id /\
       size (rows s') = size (rows s) /\
       (fault s' (QFindUnique id) = None ->
        router_get_id (prisma fault) id s' =
          (Returned (res_json (OneProperty property)), s'))).
Proof.
  assert (Hmem : forall (fault : Db -> Query -> option Error) (s : Db)
                        (property : Property),
            rows s !! id = Some property ->
            fault s (QFindUnique id) = None ->
            router_get_id (prisma fault) id s =
              (Returned (res_json (OneProperty property)), s)).
  { intros fault s property Hid Hok. apply router_get_id_found.
    rewrite findUnique_ok by assumption. rewrite Hid. reflexivity. }
  split; [ intros S prisma s s1 property; apply router_get_id_found | ].
  split; [ exact Hmem | ].
  intros fault s s' body r Hres Hcode.
  destruct (router_put_id_200 fault id body s s' r Hres Hcode)
    as (existing & Hid & -> & ->).
  eexists. split; [ reflexivity | ]. split; [ reflexivity | ].
  split.
  - simpl. apply map_size_insert_Some. rewrite Hid. eauto.
  - intros Hok. apply Hmem; [ | exact Hok ]. simpl. apply lookup_insert_eq.
Qed.

Lemma get_by_id_sends_the_last_written_record_witness :
  let created : gmap string JS.Value :=
    {[ "name" := JS.Str "X"; "location" := JS.Str "Y" ]} in
  let body : gmap string JS.Value := {[ "status" := JS.Str "sold" ]} in
  let s := run healthy [Post created; Tick 2] (MemDb.empty 0) in
  let updated := router_put_id (prisma healthy) "0" body s in
  exists property,
    fst updated =
      Returned
        (res_json (MessageProperty "Property updated successfully" property)) /\
    router_get_id (prisma healthy) "0" (snd updated) =
      (Returned (res_json (OneProperty property)), snd updated) /\
    status (fields property) = JS.Str "sold" /\
    updatedAt property = 2.
Proof.
  intros created body s updated.
  destruct (get_by_id_sends_the_last_written_record "0") as (_ & _ & Hput).
  destruct (Hput healthy s (snd updated) body
              (res_json
                 (MessageProperty "Property updated successfully"
                    {| id := "0";
                       fields := update_data body
                         {| id := "0"; fields := create_data created;
                            createdAt := 0; updatedAt := 0 |};
                       createdAt := 0; updatedAt := 2 |})))
    as (property & Hjson & _ & _ & Hget); [ reflexivity | reflexivity | ].
  simpl in Hjson. inversion Hjson; subst property.
  eexists. split; [ reflexivity | ].
  split; [ apply Hget; reflexivity | ].
  split; reflexivity.
Defined.

(** ** List: text after the number, and repeated parameters *)

Lemma read_digits_stop (d : Decimal.uint) (c : ascii) (rest : string)
    (acc : option Z) :
  (forall v, JS.digit_value c = Some v -> 10 <= v) ->
  JS.read_digits 10 (NilEmpty.string_of_uint d ++ String c rest) acc =
  JS.read_digits 10 (NilEmpty.string_of_uint d) acc.
Proof.
  intros Hc. revert acc. induction d; intros acc; simpl;
    try apply IHd.
  destruct (JS.digit_value c) as [v | ]; [ | reflexivity ].
  specialize (Hc v eq_refl).
  destruct (Z.ltb_spec v 10); [ lia | reflexivity ].
Qed.

Lemma strip_radix_numeral (d : Decimal.uint) (c : ascii) (rest : string) :
  d <> Decimal.Nil ->
  c <> "x"%char -> c <> "X"%char ->
  let text := (NilEmpty.string_of_uint d ++ String c rest)%string in
  JS.strip_radix text = (10, text).
Proof.
  intros Hd Hx HX.
  destruct d as [ | d | d | d | d | d | d | d | d | d | d ];
    [ congruence | | reflexivity .. ].
  destruct d; try reflexivity.
  simpl. destruct c as [[] [] [] [] [] [] [] []];
    solve [ reflexivity | congruence ].
Qed.

Lemma parseInt_numeral_then (d : Decimal.uint) (c : ascii) (rest : string) :
  d <> Decimal.Nil ->
  (forall v, JS.digit_value c = Some v -> 10 <= v) ->
  c <> "x"%char -> c <> "X"%char ->
  let text := (NilEmpty.string_of_uint d ++ String c rest)%string in
  JS.parseInt text = JS.Int (Z.of_N (Pos.of_uint d)) /\
  JS.parseInt (String "-" text) = JS.Int (- Z.of_N (Pos.of_uint d)).
Proof.
  intros Hd Hc Hx HX text.
  pose proof (strip_radix_numeral d c rest Hd Hx HX) as Hradix.
  fold text in Hradix.
  assert (Hhead : exists a tl,
            text = String a tl /\ JS.is_space a = false /\
            (nat_of_ascii a < 128)%nat /\
            JS.strip_sign text = (1, text)).
  { subst text. destruct d; [ congruence | .. ]; simpl;
      eexists _, _; (split; [ reflexivity | ]);
      (split; [ reflexivity | ]); (split; [ vm_compute; lia | reflexivity ]). }
  destruct Hhead as (a & tl & Htext & Hspace & Hascii & Hsign).
  assert (Hdigits : JS.read_digits 10 text None =
                    Some (Z.of_N (Pos.of_uint d))).
  { subst text. rewrite read_digits_stop by assumption.
    apply read_digits_numeral. assumption. }
  unfold JS.parseInt. split.
  - rewrite Htext, (trim_start_ascii a tl Hspace Hascii), <- Htext.
    rewrite Hsign, Hradix, Hdigits. f_equal; lia.
  - rewrite (trim_start_ascii "-" text)
      by (vm_compute; first [ reflexivity | lia ]).
    change (JS.strip_sign (String "-" text)) with (-1, text).
    cbv beta iota. rewrite Hradix, Hdigits. f_equal; lia.
Qed.

Lemma parseInt_decimal_then (z : Z) (c : ascii) (rest : string) :
  (forall v, JS.digit_value c = Some v -> 10 <= v) ->
  c <> "x"%char -> c <> "X"%char ->
  JS.parseInt (JS.decimal z ++ String c rest) = JS.Int z.
Proof.
  intros Hc Hx HX.
  assert (Hnum : forall p,
            NilZero.string_of_uint (Pos.to_uint p) =
            NilEmpty.string_of_uint (Pos.to_uint p)).
  { intros p. pose proof (Unsigned.to_uint_nonnil p) as Hnil.
    unfold NilZero.string_of_uint.
    destruct (Pos.to_uint p); congruence. }
  destruct z as [ | p | p ]; unfold JS.decimal; simpl.
  - apply (parseInt_numeral_then (Decimal.D0 Decimal.Nil) c rest);
      [ discriminate | assumption .. ].
  - rewrite Hnum.
    destruct (parseInt_numeral_then (Pos.to_uint p) c rest
                (Unsigned.to_uint_nonnil p) Hc Hx HX) as [Hpos _].
    rewrite DecimalPos.Unsigned.of_to in Hpos. exact Hpos.
  - rewrite Hnum.
    destruct (parseInt_numeral_then (Pos.to_uint p) c rest
                (Unsigned.to_uint_nonnil p) Hc Hx HX) as [_ Hneg].
    rewrite DecimalPos.Unsigned.of_to in Hneg. exact Hneg.
Qed.

(** X13.  [page] and [limit] take the integer that the parameter starts
    with and ignore what follows it: after the decimal numeral of a safe
    integer [z], any text that starts with a character other than a decimal
    digit and [x] ([2.9], [10px], [3 ]) leaves the value [z] (the default
    when [z] is 0); and of a repeated parameter ([?page=2&page=9], an
    array) the first value decides. *)
Theorem page_and_limit_read_the_leading_integer
    (query : gmap string QueryValue) (z : Z) :
  JS.safe z ->
  let after (text : string) :=
    exists c rest,
      text = (JS.decimal z ++ String c rest)%string /\
      (forall v, JS.digit_value c = Some v -> 10 <= v) /\
      c <> "x"%char /\ c <> "X"%char in
  (forall text, after text ->
     query !! "page" = Some (QString text) ->
     page_of query = if z =? 0 then 1 else z) /\
  (forall more,
     query !! "page" = Some (QArray (JS.decimal z :: more)) ->
     page_of query = if z =? 0 then 1 else z) /\
  (forall text, after text ->
     query !! "limit" = Some (QString text) ->
     limit_of query = if z =? 0 then 10 else z) /\
  (forall more,
     query !! "limit" = Some (QArray (JS.decimal z :: more)) ->
     limit_of query = if z =? 0 then 10 else z).
Proof.
  intros _ after.
  assert (Htext : forall text, after text -> JS.parseInt text = JS.Int z).
  { intros text (c & rest & -> & Hc & Hx & HX).
    apply parseInt_decimal_then; assumption. }
  assert (Harray : forall more,
            JS.parseInt (to_string (QArray (JS.decimal z :: more))) =
            JS.Int z).
  { intros [ | next more]; simpl.
    - apply parseInt_decimal.
    - apply parseInt_decimal_then; [ | discriminate .. ].
      intros v Hv. vm_compute in Hv. discriminate Hv. }
  assert (Hget : forall k v, query !! k = Some v -> query_get query k = v)
    by (intros k v Hk; unfold query_get; rewrite Hk; reflexivity).
  unfold page_of, limit_of.
  repeat split.
  - intros text Ha Hq. rewrite (Hget _ _ Hq).
    change (to_string (QString text)) with text.
    rewrite (Htext text Ha). reflexivity.
  - intros more Hq. rewrite (Hget _ _ Hq), Harray. reflexivity.
  - intros text Ha Hq. rewrite (Hget _ _ Hq).
    change (to_string (QString text)) with text.
    rewrite (Htext text Ha). reflexivity.
  - intros more Hq. rewrite (Hget _ _ Hq), Harray. reflexivity.
Qed.

Lemma page_and_limit_read_the_leading_integer_witness :
  let query : gmap string QueryValue :=
    {[ "page" := QString "2.9"; "limit" := QArray ["25"; "100"] ]} in
  page_of query = 2 /\ limit_of query = 25.
Proof.
  intros query. split.
  - destruct (page_and_limit_read_the_leading_integer query 2)
      as (Hpage & _); [ vm_compute; split; reflexivity | ].
    apply (Hpage "2.9"); [ | reflexivity ].
    exists "."%char, "9". repeat split; discriminate.
  - destruct (page_and_limit_read_the_leading_integer query 25)
      as (_ & _ & _ & Hlimit); [ vm_compute; split; reflexivity | ].
    apply (Hlimit ["100"]). reflexivity.
Defined.

(** * Start-up *)

(** X14.  [connectDB] connects once, never rejects, and ends the process
    exactly when the connection fails: when [$connect] returns, it writes
    the success line and the process goes on; when [$connect] throws, it
    writes the error under "Database connection error:", writes no success
    line, and exits with code 1.  There is no retry: the state of the
    client is the one the single [$connect] call leaves. *)
Theorem connectDB_exits_exactly_on_failure
    {S : Type} (connect : M S unit) (s : S) (p : Config.Process) :
  Config.exitCode p = None ->
  exists p',
    Config.connectDB connect (s, p) = (Returned tt, (snd (connect s), p')) /\
    (Config.exitCode p' = Some 1 <-> exists e, fst (connect s) = Thrown e) /\
    (Config.exitCode p' = None <-> fst (connect s) = Returned tt) /\
    (fst (connect s) = Returned tt ->
     Config.stdout p' =
       (Config.stdout p
        ++ ["PostgreSQL connected successfully via Prisma"])%list /\
     Config.stderr p' = Config.stderr p) /\
    (forall e,
       fst (connect s) = Thrown e ->
       Config.stdout p' = Config.stdout p /\
       Config.stderr p' =
         (Config.stderr p ++ [("Database connection error:", e)])%list).
Proof.
  intros Hrun.
  unfold Config.connectDB, try_catch, bind, Config.prisma_connect,
    Config.console_log, Config.console_error, Config.process_exit.
  destruct (connect s) as [[[] | e] s']; simpl; eexists;
    (split; [ reflexivity | ]); simpl; rewrite ?Hrun.
  - repeat split; try discriminate; auto.
    intros [e He]. discriminate He.
  - repeat split; try discriminate; eauto.
    match goal with H : Thrown _ = Thrown _ |- _ => inversion H end.
    reflexivity.
Qed.

Lemma connectDB_exits_exactly_on_failure_witness :
  let refused : M unit unit :=
    fun s => (Thrown {| message := "ECONNREFUSED" |}, s) in
  let accepted : M unit unit := fun s => (Returned tt, s) in
  (exists p',
     Config.connectDB refused (tt, Config.started) = (Returned tt, (tt, p')) /\
     Config.exitCode p' = Some 1 /\ Config.stdout p' = []) /\
  (exists p',
     Config.connectDB accepted (tt, Config.started) = (Returned tt, (tt, p')) /\
     Config.exitCode p' = None /\
     Config.stdout p' = ["PostgreSQL connected successfully via Prisma"]).
Proof.
  intros refused accepted. split.
  - destruct (connectDB_exits_exactly_on_failure refused tt Config.started)
      as (p' & Hres & Hexit & _ & _ & Herr); [ reflexivity | ].
    exists p'. split; [ exact Hres | ].
    split; [ apply Hexit; eexists; reflexivity | ].
    apply (Herr {| message := "ECONNREFUSED" |}). reflexivity.
  - destruct (connectDB_exits_exactly_on_failure accepted tt Config.started)
      as (p' & Hres & _ & Hrun & Hok & _); [ reflexivity | ].
    exists p'. split; [ exact Hres | ].
    split; [ apply Hrun; reflexivity | ].
    apply Hok. reflexivity.
Defined.
